(** * os_cloud_node: lidar packets to point clouds

    A shallow embedding of [ouster_ros/src/os_cloud_node.cpp] and the
    properties of its packet handlers, its time-stamp check and its
    start-up sequence.

    The node is one [main] function.  It fetches the sensor metadata from
    the [os_config] service, builds a scan buffer, a cloud buffer and a
    [ScanBatcher], registers one handler per packet topic, broadcasts two
    static transforms and spins.  The handlers are closures over the local
    variables of [main]; here the captured variables are explicit: the
    ones a handler only reads are a [Captured] record, the ones it mutates
    are a [Locals] record, and what leaves the process (publications,
    broadcasts, log lines) is an [Outputs] record.  A handler either
    returns or leaves by an exception; an exception that leaves a handler
    leaves [ros::spin] and [main] with it. *)

From Stdlib Require Import ZArith Strings.Byte Strings.Ascii.
From stdpp Require Import base decidable option list strings.

Local Open Scope Z_scope.

(** ** Exceptions *)

(** The exception the node can meet:
    [std::runtime_error("Time is out of dual 32-bit range")]. *)
Inductive Exception := TimeOutOfRange.

(** A call that returns a value or throws. *)
Inductive Result (A : Type) :=
| Ok (a : A)
| Throw (e : Exception).

Arguments Ok {A} a.
Arguments Throw {A} e.

(** ** Time (ros/time.h, ros/duration.h) *)

(** A [ros::Time] is a pair of unsigned 32-bit fields, seconds and
    nanoseconds, the nanoseconds below 10^9; a [ros::Duration] is its
    signed analogue.  Both are represented by their nanosecond count
    [sec * 10^9 + nsec], from which the two fields are read back, so that
    comparing two times is comparing their counts.  [Time_valid] is
    the range of the counts that are a [ros::Time].  A
    [std::chrono::nanoseconds] value is a nanosecond count as well. *)
Definition Time := Z.
Definition Duration := Z.

Definition UINT32_MAX : Z := 4294967295.

Definition Time_of (sec nsec : Z) : Time := sec * 1000000000 + nsec.
Definition Time_sec (t : Time) : Z := t / 1000000000.
Definition Time_nsec (t : Time) : Z := t mod 1000000000.

Definition Time_valid (t : Time) : Prop :=
  0 ≤ t ≤ Time_of UINT32_MAX 999999999.

Definition Duration_of (sec nsec : Z) : Duration := sec * 1000000000 + nsec.
Definition Duration_sec (d : Duration) : Z := d / 1000000000.
Definition Duration_nsec (d : Duration) : Z := d mod 1000000000.

(** [ros::Duration(s)] for a whole number of seconds. *)
Definition Duration_of_sec (s : Z) : Duration := Duration_of s 0.

(** [normalizeSecNSecUnsigned]: carries the nanoseconds into the seconds
    (the C++ division and remainder truncate towards zero) and throws when
    the seconds leave the unsigned 32-bit range. *)
Definition normalizeSecNSecUnsigned (sec nsec : Z) : Result Time :=
  let nsec_part := Z.rem nsec 1000000000 in
  let sec_part := sec + Z.quot nsec 1000000000 in
  let nsec_part' := if nsec_part <? 0 then nsec_part + 1000000000 else nsec_part in
  let sec_part' := if nsec_part <? 0 then sec_part - 1 else sec_part in
  if (sec_part' <? 0) || (UINT32_MAX <? sec_part')
  then Throw TimeOutOfRange
  else Ok (Time_of sec_part' nsec_part').

(** [Duration::operator-()]: both fields negated, then normalised. *)
Definition Duration_neg (d : Duration) : Duration :=
  Duration_of (- Duration_sec d) (- Duration_nsec d).

(** [Time::operator+(Duration)] and [Time::operator-(Duration)], the latter
    being [*this + (-d)]. *)
Definition Time_plus (t : Time) (d : Duration) : Result Time :=
  normalizeSecNSecUnsigned (Time_sec t + Duration_sec d)
    (Time_nsec t + Duration_nsec d).

Definition Time_minus (t : Time) (d : Duration) : Result Time :=
  Time_plus t (Duration_neg d).

(** ** Logging (ros/console.h) *)

(** The two messages the node logs, both through [ROS_ERROR]. *)
Inductive LogMsg :=
| ConfigServiceFailed
    (* "Calling config service failed" *)
| LidarClockNotInSync (host_time lidar_time : Time).
    (* "Lidar clock is not in sync with host. Current host time: %f,
       Lidar message time: %f" *)

Inductive LogLine := ROS_ERROR (m : LogMsg).

(** [std_msgs::Header], without the sequence number. *)
Record Header := { stamp : Time; frame_id : string }.

(** ** Message and matrix types the node only passes along *)

(** What the node never looks into: single-precision point coordinates,
    the 4x4 [ouster::mat4d], [sensor_msgs::Imu] and
    [geometry_msgs::TransformStamped]. *)
Class RosTypes := {
  float : Type;
  mat4d : Type;
  Imu : Type;
  TransformStamped : Type;
}.

(** ** Sensor types (ouster/types.h, ouster/lidar_scan.h, ouster_ros/ros.h) *)

Inductive lidar_mode :=
| MODE_UNSPEC | MODE_512x10 | MODE_512x20
| MODE_1024x10 | MODE_1024x20 | MODE_2048x10.

Global Instance lidar_mode_eq_dec : EqDecision lidar_mode.
Proof. solve_decision. Defined.

Record data_format := {
  pixels_per_column : nat;
  columns_per_frame : nat;
}.

Inductive channel := RANGE | REFLECTIVITY | SIGNAL | NEAR_IR.

(** Modelled from the spec: [sensor::packet_format] is declared in
    ouster/types.h, which is not among the sources verified here.  The
    descriptor exposes the decode operations of the specification
    ([column_count], [timestamp_of_column], [measurement_id_of_column],
    [pixel_value]) as functions of the raw packet bytes, and the fixed
    packet sizes of the profile. *)
Record packet_format := {
  lidar_packet_size : nat;
  imu_packet_size : nat;
  column_count : list byte → nat;
  timestamp_of_column : list byte → nat → Z;
  measurement_id_of_column : list byte → nat → nat;
  pixel_value : list byte → nat → nat → channel → Z;
}.

(** [ouster_ros::PacketMsg]: one raw packet. *)
Record PacketMsg := { buf : list byte }.

(** One cell of the scan buffer. *)
Record Pixel := {
  px_range : Z;
  px_reflectivity : Z;
  px_signal : Z;
  px_near_ir : Z;
}.

(** Per-column header of the scan buffer. *)
Record BlockHeader := {
  timestamp : Z;          (* std::chrono::nanoseconds *)
  measurement_id : nat;
}.

(** Modelled from the spec: [ouster::LidarScan] is declared in
    ouster/lidar_scan.h, not among the sources verified here.  A scan buffer
    is a grid of [w] columns by [h] pixels with one header per column;
    pixel (column [v], row [u]) is stored at index [u * w + v]. *)
Record LidarScan := {
  w : nat;
  h : nat;
  headers : list BlockHeader;
  data : list Pixel;
}.

Definition empty_pixel : Pixel :=
  {| px_range := 0; px_reflectivity := 0; px_signal := 0; px_near_ir := 0 |}.

Definition empty_header : BlockHeader :=
  {| timestamp := 0; measurement_id := 0 |}.

(** [ouster::LidarScan ls{W, H}]: every column defaults to zero. *)
Definition LidarScan_new (W H : nat) : LidarScan :=
  {| w := W; h := H;
     headers := replicate W empty_header;
     data := replicate (H * W) empty_pixel |}.

Section DataModel.
Context `{RosTypes}.

Record sensor_info := {
  mode : lidar_mode;
  format : data_format;
  imu_to_sensor_transform : mat4d;
  lidar_to_sensor_transform : mat4d;
}.

(** [ouster_ros::Point]. *)
Record Point := {
  x : float; y : float; z : float;
  intensity : Z;
  t : Z;
  reflectivity : Z;
  ring : nat;
  noise : Z;
  range : Z;
}.

(** [ouster_ros::Cloud]: a dense array of points. *)
Record Cloud := {
  width : nat;
  height : nat;
  points : list Point;
}.

(** [sensor_msgs::PointCloud2], with the payload kept structured. *)
Record PointCloud2 := {
  header : Header;
  cloud_data : Cloud;
}.

(** Modelled from the spec: [ouster_ros::cloud_to_cloud_msg] is defined
    in ouster_ros/src/ros.cpp, not among the sources verified here.  The
    message carries the cloud, stamped with the given time and frame. *)
Definition cloud_to_cloud_msg (cloud : Cloud) (timestamp : Z)
    (frame : string) : PointCloud2 :=
  {| header := {| stamp := timestamp; frame_id := frame |};
     cloud_data := cloud |}.
End DataModel.

(** ** The library interface the node is written against *)

(** The functions and classes of the sensor client library and of
    ouster_ros/ros.h that [main] calls.  The node is verified against any
    implementation of this interface; [batch_call] is
    [ScanBatcher::operator()], which mutates both the batcher and the scan
    buffer handed to it and returns the completion flag. *)
Class Sdk `{RosTypes} := {
  parse_metadata : string → sensor_info;
  get_format : sensor_info → packet_format;
  XYZLut : Type;
  make_xyz_lut : sensor_info → XYZLut;
  Cloud_new : nat → nat → Cloud;
  ScanBatcher : Type;
  ScanBatcher_new : nat → packet_format → ScanBatcher;
  batch_call : ScanBatcher → list byte → LidarScan → bool * (ScanBatcher * LidarScan);
  scan_to_cloud : XYZLut → Z → LidarScan → Cloud → Cloud;
  packet_to_imu_msg : PacketMsg → string → packet_format → Imu;
  transform_to_tf_msg : mat4d → string → string → TransformStamped;
}.

(** ** Diagnostics (diagnostics.h) *)

(** Modelled from the spec: the [Diagnostics] class of diagnostics.h is not
    among the sources verified here.  It is an observer notified on each
    emission: [tick] records the stamp, [update] counts the refreshes. *)
Record Diagnostics := {
  frequency : Z;
  diag_name : string;
  hardware_id : string;
  ticks : list Time;
  updates : nat;
}.

Definition Diagnostics_new (freq : Z) (name hw : string) : Diagnostics :=
  {| frequency := freq; diag_name := name; hardware_id := hw;
     ticks := []; updates := 0 |}.

Definition tick (stamp : Time) (d : Diagnostics) : Diagnostics :=
  {| frequency := frequency d; diag_name := diag_name d;
     hardware_id := hardware_id d;
     ticks := ticks d ++ [stamp]; updates := updates d |}.

Definition update (d : Diagnostics) : Diagnostics :=
  {| frequency := frequency d; diag_name := diag_name d;
     hardware_id := hardware_id d;
     ticks := ticks d; updates := S (updates d) |}.

(** ** check_valid_timestamp *)

Definition kMaxTimeOffset : Duration := Duration_of_sec 5.

(** [now] is the value [ros::Time::now()] returns inside the call.  The
    function returns with the log as it leaves it, or throws what the
    subtraction [now - kMaxTimeOffset] throws. *)
Definition check_valid_timestamp (now : Time) (msg_time : Time)
    (rosout : list LogLine) : Result (list LogLine) :=
  match Time_minus now kMaxTimeOffset with
  | Throw e => Throw e
  | Ok limit =>
      Ok (if bool_decide (msg_time < limit)
          then rosout ++ [ROS_ERROR (LidarClockNotInSync now msg_time)]
          else rosout)
  end.

(** ** The node *)

Section Node.
Context `{Sdk}.

(** Variables of [main] the handlers capture and only read. *)
Record Captured := {
  sensor_frame : string;
  imu_frame : string;
  lidar_frame : string;
  pf : packet_format;
  xyz_lut : XYZLut;
}.

(** Variables of [main] the handlers capture and mutate. *)
Record Locals := {
  ls : LidarScan;
  cloud : Cloud;
  batch : ScanBatcher;
  diagnostics : Diagnostics;
}.

(** What the process emits: the two publishers, the static transform
    broadcaster and the log. *)
Record Outputs := {
  lidar_pub : list PointCloud2;
  imu_pub : list Imu;
  tf_bcast : list TransformStamped;
  rosout : list LogLine;
}.

Definition no_outputs : Outputs :=
  {| lidar_pub := []; imu_pub := []; tf_bcast := []; rosout := [] |}.

Definition log (l : LogLine) (o : Outputs) : Outputs :=
  {| lidar_pub := lidar_pub o; imu_pub := imu_pub o;
     tf_bcast := tf_bcast o; rosout := rosout o ++ [l] |}.

Definition sendTransform (m : TransformStamped) (o : Outputs) : Outputs :=
  {| lidar_pub := lidar_pub o; imu_pub := imu_pub o;
     tf_bcast := tf_bcast o ++ [m]; rosout := rosout o |}.

(** The first header with a nonzero time stamp, as [std::find_if] finds
    it; [None] stands for [ls.headers.end()]. *)
Definition find_if_timestamp (hs : list BlockHeader) : option BlockHeader :=
  snd <$> list_find (λ h, timestamp h ≠ 0) hs.

(** How a handler, [ros::spin] or any call that runs handlers ends: it
    returns, or an exception leaves it.  The variables the handlers share
    keep what was written to them before the exception. *)
Inductive Completion :=
| Normal
| Thrown (e : Exception).

(** What the handler leaves behind when it emits nothing. *)
Definition skipped (l : Locals) (batch' : ScanBatcher) (ls' : LidarScan)
    : Locals :=
  {| ls := ls'; cloud := cloud l; batch := batch';
     diagnostics := diagnostics l |}.

(** The cloud and the message of a scan emitted under stamp [ts]. *)
Definition emitted_cloud (c : Captured) (l : Locals) (ls' : LidarScan)
    (ts : Z) : Cloud :=
  scan_to_cloud (xyz_lut c) ts ls' (cloud l).

Definition emitted_msg (c : Captured) (l : Locals) (ls' : LidarScan)
    (ts : Z) : PointCloud2 :=
  cloud_to_cloud_msg (emitted_cloud c l ls' ts) ts (sensor_frame c).

(** What the handler leaves behind when the time-stamp check throws: the
    scan is converted, nothing else happened. *)
Definition converted (c : Captured) (l : Locals) (batch' : ScanBatcher)
    (ls' : LidarScan) (ts : Z) : Locals :=
  {| ls := ls'; cloud := emitted_cloud c l ls' ts; batch := batch';
     diagnostics := diagnostics l |}.

(** What it leaves behind when it emits the scan under stamp [ts]. *)
Definition emitted (c : Captured) (l : Locals) (batch' : ScanBatcher)
    (ls' : LidarScan) (ts : Z) : Locals :=
  {| ls := ls'; cloud := emitted_cloud c l ls' ts; batch := batch';
     diagnostics := update (tick ts (diagnostics l)) |}.

(** [lidar_handler], lines 76 to 95.  [now] is the host time the clock
    returns if the handler gets to read it. *)
Definition lidar_handler (c : Captured) (now : Time) (pm : PacketMsg)
    (s : Locals * Outputs) : Completion * (Locals * Outputs) :=
  let '(l, o) := s in
  let '(swapped, (batch', ls')) := batch_call (batch l) (buf pm) (ls l) in
  if swapped then
    match find_if_timestamp (headers ls') with
    | Some h =>
        let cloud' := scan_to_cloud (xyz_lut c) (timestamp h) ls' (cloud l) in
        let msg := cloud_to_cloud_msg cloud' (timestamp h) (sensor_frame c) in
        match check_valid_timestamp now (stamp (header msg)) (rosout o) with
        | Throw e =>
            (Thrown e,
             ({| ls := ls'; cloud := cloud'; batch := batch';
                 diagnostics := diagnostics l |}, o))
        | Ok rosout' =>
            (Normal,
             ({| ls := ls'; cloud := cloud'; batch := batch';
                 diagnostics :=
                   update (tick (stamp (header msg)) (diagnostics l)) |},
              {| lidar_pub := lidar_pub o ++ [msg]; imu_pub := imu_pub o;
                 tf_bcast := tf_bcast o; rosout := rosout' |}))
        end
    | None =>
        (Normal,
         ({| ls := ls'; cloud := cloud l; batch := batch';
             diagnostics := diagnostics l |}, o))
    end
  else
    (Normal,
     ({| ls := ls'; cloud := cloud l; batch := batch';
         diagnostics := diagnostics l |}, o)).

(** [imu_handler], lines 97 to 99. *)
Definition imu_handler (c : Captured) (p : PacketMsg)
    (s : Locals * Outputs) : Locals * Outputs :=
  let '(l, o) := s in
  (l, {| lidar_pub := lidar_pub o;
         imu_pub := imu_pub o ++ [packet_to_imu_msg p (imu_frame c) (pf c)];
         tf_bcast := tf_bcast o; rosout := rosout o |}).

(** One callback delivered by [ros::spin]: a message on [lidar_packets]
    (with the host time at which its handler runs) or on [imu_packets]. *)
Inductive Callback :=
| lidar_packets (now : Time) (pm : PacketMsg)
| imu_packets (p : PacketMsg).

Definition dispatch (c : Captured) (s : Locals * Outputs) (cb : Callback)
    : Completion * (Locals * Outputs) :=
  match cb with
  | lidar_packets now pm => lidar_handler c now pm s
  | imu_packets p => (Normal, imu_handler c p s)
  end.

(** [ros::spin()]: the callbacks run one after the other, in arrival
    order, until shutdown; an exception that leaves a callback leaves
    [ros::spin], and the callbacks after it are not run. *)
Fixpoint spin (c : Captured) (cbs : list Callback) (s : Locals * Outputs)
    : Completion * (Locals * Outputs) :=
  match cbs with
  | [] => (Normal, s)
  | cb :: rest =>
      match dispatch c s cb with
      | (Normal, s') => spin c rest s'
      | (Thrown e, s') => (Thrown e, s')
      end
  end.

(** What [main] reads from its environment: the [tf_prefix] parameter
    and the outcome of the [os_config] service call ([None] when the
    call fails, the metadata string of the response otherwise). *)
Record Env := {
  tf_prefix_param : string;
  os_config : option string;
}.

Definition EXIT_SUCCESS : Z := 0.
Definition EXIT_FAILURE : Z := 1.

(** How the process ends: [main] returns an exit status, or an exception
    nobody catches leaves [main] and the process is terminated. *)
Inductive Status :=
| Exit (code : Z)
| Terminated (e : Exception).

(** Lines 43 and 44: a nonempty prefix gets a trailing slash. *)
Definition back (s : string) : option Ascii.ascii :=
  String.get (Nat.pred (String.length s)) s.

Definition tf_prefix_of (p : string) : string :=
  if bool_decide (p ≠ "" ∧ back p ≠ Some "/"%char) then p +:+ "/" else p.

(** Line 63. *)
Definition frequency_of (info : sensor_info) : Z :=
  if bool_decide (mode info = MODE_512x20 ∨ mode info = MODE_1024x20)
  then 20 else 10.

(** [main], lines 39 to 118: how the process ends and everything emitted,
    given the environment and the callbacks delivered while spinning.
    The handlers are registered before the transforms are broadcast, but
    they run inside [ros::spin] only; [main] catches nothing. *)
Definition main (env : Env) (cbs : list Callback) : Status * Outputs :=
  let tf_prefix := tf_prefix_of (tf_prefix_param env) in
  let sensor_frame := tf_prefix +:+ "os_sensor" in
  let imu_frame := tf_prefix +:+ "os_imu" in
  let lidar_frame := tf_prefix +:+ "os_lidar" in
  match os_config env with
  | None =>
      (Exit EXIT_FAILURE, log (ROS_ERROR ConfigServiceFailed) no_outputs)
  | Some metadata =>
      let info := parse_metadata metadata in
      let H := pixels_per_column (format info) in
      let W := columns_per_frame (format info) in
      let pf := get_format info in
      let frequency := frequency_of info in
      let diagnostics := Diagnostics_new frequency "ouster" "ouster" in
      let xyz_lut := make_xyz_lut info in
      let cloud := Cloud_new W H in
      let ls := LidarScan_new W H in
      let batch := ScanBatcher_new W pf in
      let c := {| sensor_frame := sensor_frame; imu_frame := imu_frame;
                  lidar_frame := lidar_frame; pf := pf; xyz_lut := xyz_lut |} in
      let l := {| ls := ls; cloud := cloud; batch := batch;
                  diagnostics := diagnostics |} in
      let o := sendTransform
                 (transform_to_tf_msg (imu_to_sensor_transform info)
                    sensor_frame imu_frame) no_outputs in
      let o := sendTransform
                 (transform_to_tf_msg (lidar_to_sensor_transform info)
                    sensor_frame lidar_frame) o in
      match spin c cbs (l, o) with
      | (Normal, s) => (Exit EXIT_SUCCESS, snd s)
      | (Thrown e, s) => (Terminated e, snd s)
      end
  end.
End Node.

(** ** Buffers written by index *)

(** A sequence of writes [buffer[i] = a] applied to a buffer, first write
    first; a write outside the buffer is not performed. *)
Definition store {A} (ws : list (nat * A)) (l : list A) : list A :=
  foldl (λ l w, <[w.1 := w.2]> l) l ws.

(** ** The scan batcher *)

Module ScanBatcherModel.

(** Modelled from the spec: [ouster::ScanBatcher] (ouster/lidar_scan.h
    and its implementation) is not among the sources verified here.

    The batcher works on the single scan buffer the caller hands in and
    overwrites it in place.  It remembers the measurement id of the last
    column it accepted.  For each column of a packet, in packet order:
    - a column whose id is outside [0, W) is ignored;
    - otherwise the column is written at its column index; it completes
      the revolution before it when its id is less than or equal to the
      previously seen id (the wrap of the measurement-id sequence).
    A call returns true exactly when one of the columns of its packet
    completed a revolution.

    For the first column ever the specification gives two answers: its
    transition rule counts it among the columns that finalise the buffer
    and return true, its return contract has a call return true only for
    a column of the next revolution.  [first_completes] is the answer the
    batcher is built with. *)
Record t := {
  sb_w : nat;
  sb_pf : packet_format;
  first_completes : bool;
  prev_id : option nat;
}.

Definition new (first : bool) (W : nat) (pf : packet_format) : t :=
  {| sb_w := W; sb_pf := pf; first_completes := first; prev_id := None |}.

Definition decode_pixel (pf : packet_format) (packet : list byte)
    (icol u : nat) : Pixel :=
  {| px_range := pixel_value pf packet icol u RANGE;
     px_reflectivity := pixel_value pf packet icol u REFLECTIVITY;
     px_signal := pixel_value pf packet icol u SIGNAL;
     px_near_ir := pixel_value pf packet icol u NEAR_IR |}.

(** Column [icol] of the packet goes to column [m_id] of the buffer. *)
Definition write_column (pf : packet_format) (packet : list byte)
    (icol m_id : nat) (ls : LidarScan) : LidarScan :=
  {| w := w ls; h := h ls;
     headers := <[m_id := {| timestamp := timestamp_of_column pf packet icol;
                             measurement_id := m_id |}]> (headers ls);
     data := foldl (λ d u, <[(u * w ls + m_id)%nat :=
                               decode_pixel pf packet icol u]> d)
               (data ls) (seq 0 (h ls)) |}.

Definition wraps (first : bool) (prev : option nat) (m_id : nat) : bool :=
  match prev with
  | Some p => bool_decide (m_id ≤ p)%nat
  | None => first
  end.

Definition batch_column (b : t) (packet : list byte) (icol : nat)
    (ls : LidarScan) : bool * (t * LidarScan) :=
  let m_id := measurement_id_of_column (sb_pf b) packet icol in
  if bool_decide (sb_w b ≤ m_id)%nat then (false, (b, ls))
  else
    (wraps (first_completes b) (prev_id b) m_id,
     ({| sb_w := sb_w b; sb_pf := sb_pf b;
         first_completes := first_completes b; prev_id := Some m_id |},
      write_column (sb_pf b) packet icol m_id ls)).

(** The loop of one call over the columns of the packet. *)
Fixpoint batch_columns (icols : list nat) (b : t) (packet : list byte)
    (ls : LidarScan) : bool * (t * LidarScan) :=
  match icols with
  | [] => (false, (b, ls))
  | icol :: rest =>
      let '(s1, (b1, ls1)) := batch_column b packet icol ls in
      let '(s2, r) := batch_columns rest b1 packet ls1 in
      (s1 || s2, r)
  end.

Definition batch (b : t) (packet : list byte) (ls : LidarScan)
    : bool * (t * LidarScan) :=
  batch_columns (seq 0 (column_count (sb_pf b) packet)) b packet ls.

(** The flags returned by successive calls on a stream of packets. *)
Fixpoint run (b : t) (ls : LidarScan) (pms : list PacketMsg) : list bool :=
  match pms with
  | [] => []
  | pm :: rest =>
      let '(s, (b', ls')) := batch b (buf pm) ls in
      s :: run b' ls' rest
  end.

End ScanBatcherModel.

(** ** The scan-to-cloud converter *)

Module ScanToCloudModel.
Section Converter.
Context `{RosTypes}.

(** The arithmetic of the point coordinates: product, sum, the
    conversion of a range to a coordinate, and the position given to a
    pixel without return. *)
Variables (fmul fadd : float → float → float) (of_range : Z → float).
Variable no_return : float * float * float.

(** Modelled from the spec: the lookup table is built by
    [ouster::make_xyz_lut], not among the sources verified here.  One unit
    direction and one offset per pixel, pixel (column [v], row [u]) at
    index [u * w + v]. *)
Record lut := {
  direction : list (float * float * float);
  offset : list (float * float * float);
}.

Definition axpy (d : float * float * float) (r : float)
    (o : float * float * float) : float * float * float :=
  let '(dx, dy, dz) := d in
  let '(ox, oy, oz) := o in
  (fadd (fmul dx r) ox, fadd (fmul dy r) oy, fadd (fmul dz r) oz).

Definition position (l : lut) (i : nat) (r : Z) : float * float * float :=
  if bool_decide (0 < r)
  then axpy (default no_return (direction l !! i)) (of_range r)
            (default no_return (offset l !! i))
  else no_return.

(** The point of pixel (column [v], row [u]); its time is the time stamp
    of its column relative to the scan time stamp handed to the
    converter. *)
Definition point_of (l : lut) (scan_ts : Z) (ls : LidarScan) (u v : nat)
    : Point :=
  let i := (u * w ls + v)%nat in
  let px := default empty_pixel (data ls !! i) in
  let col := default empty_header (headers ls !! v) in
  let '(px_x, px_y, px_z) := position l i (px_range px) in
  {| x := px_x; y := px_y; z := px_z;
     intensity := px_signal px;
     t := timestamp col - scan_ts;
     reflectivity := px_reflectivity px;
     ring := u;
     noise := px_near_ir px;
     range := px_range px |}.

(** The writes of one row of the scan, and of the whole scan, in the
    order the converter performs them. *)
Definition row_writes (l : lut) (scan_ts : Z) (ls : LidarScan) (u : nat)
    : list (nat * Point) :=
  (λ v, ((u * w ls + v)%nat, point_of l scan_ts ls u v)) <$> seq 0 (w ls).

Definition writes (l : lut) (scan_ts : Z) (ls : LidarScan)
    : list (nat * Point) :=
  seq 0 (h ls) ≫= row_writes l scan_ts ls.

(** The point the converter stores at index [i]. *)
Definition point_at (l : lut) (scan_ts : Z) (ls : LidarScan) (i : nat)
    : Point :=
  point_of l scan_ts ls (i / w ls) (i mod w ls).

Definition convert_row (l : lut) (scan_ts : Z) (ls : LidarScan) (u : nat)
    (pts : list Point) : list Point :=
  foldl (λ pts v, <[(u * w ls + v)%nat := point_of l scan_ts ls u v]> pts)
    pts (seq 0 (w ls)).

(** Modelled from the spec: [ouster_ros::scan_to_cloud] is defined in
    ouster_ros/src/ros.cpp, not among the sources verified here.  The
    converter writes one point per pixel of the scan into the cloud
    buffer it is given, row by row and column by column. *)
Definition scan_to_cloud (l : lut) (scan_ts : Z) (ls : LidarScan)
    (cloud : Cloud) : Cloud :=
  {| width := width cloud; height := height cloud;
     points := foldl (λ pts u, convert_row l scan_ts ls u pts)
                 (points cloud) (seq 0 (h ls)) |}.
End Converter.
End ScanToCloudModel.

(** ** A small sensor to run the node on *)

(** A four-column, two-row sensor whose packets carry two columns of three
    bytes each: measurement id, time stamp in seconds, range.  The
    converter model runs on integer coordinates, and the batcher counts
    the first column ever as completing a revolution. *)
Module Fixture.

Global Instance types : RosTypes :=
  {| float := Z;
     mat4d := list Z;
     Imu := string * list byte;
     TransformStamped := list Z * string * string |}.

Definition byte_at (b : list byte) (i : nat) : nat :=
  N.to_nat (Byte.to_N (default x00 (b !! i))).

Definition fmt : packet_format :=
  {| lidar_packet_size := 6;
     imu_packet_size := 4;
     column_count := λ _, 2%nat;
     measurement_id_of_column := λ b icol, byte_at b (3 * icol);
     timestamp_of_column := λ b icol,
       Z.of_nat (byte_at b (3 * icol + 1)) * 1000000000;
     pixel_value := λ b icol _ ch,
       match ch with
       | RANGE => Z.of_nat (byte_at b (3 * icol + 2))
       | _ => 0
       end |}.

Definition info : sensor_info :=
  {| mode := MODE_1024x10;
     format := {| pixels_per_column := 2; columns_per_frame := 4 |};
     imu_to_sensor_transform := [1; 0; 0; 6; 0; 1; 0; -12; 0; 0; 1; -7; 0; 0; 0; 1];
     lidar_to_sensor_transform := [-1; 0; 0; 0; 0; -1; 0; 0; 0; 0; 1; 36; 0; 0; 0; 1] |}.

Definition zero_point : Point :=
  {| x := 0; y := 0; z := 0; intensity := 0; t := 0; reflectivity := 0;
     ring := 0; noise := 0; range := 0 |}.

Definition unit_lut : ScanToCloudModel.lut :=
  {| ScanToCloudModel.direction := replicate 8 (1, 0, 0);
     ScanToCloudModel.offset := replicate 8 (0, 0, 0) |}.

Global Instance sdk : Sdk :=
  {| parse_metadata := λ _, info;
     get_format := λ _, fmt;
     XYZLut := ScanToCloudModel.lut;
     make_xyz_lut := λ _, unit_lut;
     Cloud_new := λ W H,
       {| width := W; height := H; points := replicate (W * H) zero_point |};
     ScanBatcher := ScanBatcherModel.t;
     ScanBatcher_new := ScanBatcherModel.new true;
     batch_call := ScanBatcherModel.batch;
     scan_to_cloud := ScanToCloudModel.scan_to_cloud Z.mul Z.add id (0, 0, 0);
     packet_to_imu_msg := λ p frame _, (frame, buf p);
     transform_to_tf_msg := λ m frame child, (m, frame, child) |}.

Definition captured : Captured :=
  {| sensor_frame := "os_sensor"; imu_frame := "os_imu";
     lidar_frame := "os_lidar"; pf := fmt; xyz_lut := unit_lut |}.

Definition fresh : Locals :=
  {| ls := LidarScan_new 4 2;
     cloud := Cloud_new 4 2;
     batch := ScanBatcherModel.new true 4 fmt;
     diagnostics := Diagnostics_new 10 "ouster" "ouster" |}.

(** A lidar packet from its two columns, each (id, seconds, range). *)
Definition packet (c0 c1 : byte * byte * byte) : PacketMsg :=
  let '(i0, t0, r0) := c0 in
  let '(i1, t1, r1) := c1 in
  {| buf := [i0; t0; r0; i1; t1; r1] |}.

(** One revolution whose columns all carry a zero time stamp, one whose
    columns 2 and 3 only carry a nonzero one, and the packet that opens
    the next revolution. *)
Definition unstamped_revolution : list PacketMsg :=
  [ packet (x00, x00, x05) (x01, x00, x05);
    packet (x02, x00, x05) (x03, x00, x05) ].

Definition half_stamped_revolution : list PacketMsg :=
  [ packet (x00, x00, x05) (x01, x00, x05);
    packet (x02, x07, x05) (x03, x09, x00) ].

Definition next_revolution : PacketMsg :=
  packet (x00, x00, x03) (x01, x00, x03).

(** A revolution of which only the columns 2 and 3 arrived, stamped 7 s
    and 9 s, and a packet with the same columns stamped 200 s and
    201 s. *)
Definition partial_revolution : list PacketMsg :=
  [ packet (x02, x07, x05) (x03, x09, x00) ].

Definition late_stamped_packet : PacketMsg :=
  packet (x02, xc8, x05) (x03, xc9, x00).

(** A packet that opens the next revolution with stamped columns. *)
Definition stamped_next_revolution : PacketMsg :=
  packet (x00, x07, x03) (x01, x09, x03).

(** Host times: the epoch, and a hundred seconds after it. *)
Definition at_epoch : Time := Time_of 0 0.
Definition at_100s : Time := Time_of 100 0.

(** The node state after a revolution went through the lidar handler, a
    hundred seconds after the epoch. *)
Definition after (pms : list PacketMsg) : Locals * Outputs :=
  snd (spin captured (lidar_packets at_100s <$> pms) (fresh, no_outputs)).

(** What the batcher answers to the packet that opens the next
    revolution, in a given node state. *)
Definition wrap_call (s : Locals * Outputs)
    : bool * (ScanBatcher * LidarScan) :=
  batch_call (batch (fst s)) (buf next_revolution) (ls (fst s)).

End Fixture.

(** ** Runs of the node *)

Section Runs.
Context `{Sdk}.

(** One pass through the emitting branch of [lidar_handler] (lines 83 to
    92): the host time read by the time-stamp check, the time stamp of the
    scan and the cloud the converter left in the buffer. *)
Record Emission := {
  em_now : Time;
  em_stamp : Z;
  em_cloud : Cloud;
}.

(** The message of line 85 and the log lines of line 88 for one
    emission. *)
Definition publish_of (c : Captured) (e : Emission) : PointCloud2 :=
  cloud_to_cloud_msg (em_cloud e) (em_stamp e) (sensor_frame c).

Definition report_of (e : Emission) : list LogLine :=
  match check_valid_timestamp (em_now e) (em_stamp e) [] with
  | Ok lines => lines
  | Throw _ => []
  end.

(** The callbacks of each topic. *)
Definition is_lidar (cb : Callback) : bool :=
  match cb with lidar_packets _ _ => true | imu_packets _ => false end.

Definition imu_of (cb : Callback) : option PacketMsg :=
  match cb with lidar_packets _ _ => None | imu_packets p => Some p end.

Definition lidar_of (cb : Callback) : option PacketMsg :=
  match cb with lidar_packets _ pm => Some pm | imu_packets _ => None end.

(** The batcher and the scan buffer after the batcher was called on each
    packet of a list in turn, the completion flags dropped. *)
Definition feed_batcher (pms : list PacketMsg)
    (st : ScanBatcher * LidarScan) : ScanBatcher * LidarScan :=
  foldl (λ st pm, snd (batch_call (fst st) (buf pm) (snd st))) st pms.

(** The state [r] is the state ([l], [o]) after the emissions [es] and the
    IMU readings [imus]: every output grew by what they add, and the
    diagnostics were ticked and updated once per emission. *)
Definition run_effect (c : Captured) (l : Locals) (o : Outputs)
    (es : list Emission) (imus : list Imu) (r : Locals * Outputs) : Prop :=
  lidar_pub (snd r) = lidar_pub o ++ (publish_of c <$> es) ∧
  imu_pub (snd r) = imu_pub o ++ imus ∧
  tf_bcast (snd r) = tf_bcast o ∧
  rosout (snd r) = rosout o ++ (es ≫= report_of) ∧
  ticks (diagnostics (fst r)) = ticks (diagnostics l) ++ (em_stamp <$> es) ∧
  updates (diagnostics (fst r)) = (updates (diagnostics l) + length es)%nat.

(** The variables of [main] once the metadata is there (lines 57 to 74)
    and what it has emitted when it starts spinning (lines 106 to 113). *)
Definition main_captured (prefix metadata : string) : Captured :=
  {| sensor_frame := tf_prefix_of prefix +:+ "os_sensor";
     imu_frame := tf_prefix_of prefix +:+ "os_imu";
     lidar_frame := tf_prefix_of prefix +:+ "os_lidar";
     pf := get_format (parse_metadata metadata);
     xyz_lut := make_xyz_lut (parse_metadata metadata) |}.

Definition main_locals (metadata : string) : Locals :=
  {| ls := LidarScan_new
             (columns_per_frame (format (parse_metadata metadata)))
             (pixels_per_column (format (parse_metadata metadata)));
     cloud := Cloud_new
                (columns_per_frame (format (parse_metadata metadata)))
                (pixels_per_column (format (parse_metadata metadata)));
     batch := ScanBatcher_new
                (columns_per_frame (format (parse_metadata metadata)))
                (get_format (parse_metadata metadata));
     diagnostics := Diagnostics_new (frequency_of (parse_metadata metadata))
                      "ouster" "ouster" |}.

Definition main_started (prefix metadata : string) : Outputs :=
  sendTransform
    (transform_to_tf_msg
       (lidar_to_sensor_transform (parse_metadata metadata))
       (tf_prefix_of prefix +:+ "os_sensor")
       (tf_prefix_of prefix +:+ "os_lidar"))
    (sendTransform
       (transform_to_tf_msg
          (imu_to_sensor_transform (parse_metadata metadata))
          (tf_prefix_of prefix +:+ "os_sensor")
          (tf_prefix_of prefix +:+ "os_imu"))
       no_outputs).
End Runs.

(** * Properties *)

(** ** Time arithmetic *)

(** [now - kMaxTimeOffset] throws for a host time less than five seconds
    after the epoch (and for a count beyond every [ros::Time]); otherwise
    it is the count five seconds before. *)
Lemma Time_minus_offset_cases (now : Time) :
  (Time_minus now kMaxTimeOffset = Throw TimeOutOfRange ∧
   (now < 5000000000 ∨ Time_of UINT32_MAX 999999999 + 5000000000 < now)) ∨
  (Time_minus now kMaxTimeOffset = Ok (now - 5000000000) ∧
   5000000000 ≤ now).
Proof.
  unfold Time_minus, Time_plus.
  replace (Duration_sec (Duration_neg kMaxTimeOffset)) with (-5)
    by reflexivity.
  replace (Duration_nsec (Duration_neg kMaxTimeOffset)) with 0
    by reflexivity.
  unfold Time_sec, Time_nsec, normalizeSecNSecUnsigned, Time_of, UINT32_MAX.
  pose proof (Z.div_mod now 1000000000 ltac:(lia)) as Hdm.
  pose proof (Z.mod_pos_bound now 1000000000 ltac:(lia)) as Hr.
  set (q := now / 1000000000) in *. set (r := now mod 1000000000) in *.
  rewrite Z.add_0_r.
  rewrite (Z.rem_small r 1000000000), (Z.quot_small r 1000000000) by lia.
  destruct (Z.ltb_spec r 0) as [?|_]; [lia|].
  rewrite Z.add_0_r.
  destruct (Z.ltb_spec (q + -5) 0) as [Hlo|Hlo]; simpl.
  - left. split; [done|]. left. lia.
  - destruct (Z.ltb_spec 4294967295 (q + -5)) as [Hhi|Hhi].
    + left. split; [done|]. right. lia.
    + right. split; [|lia]. f_equal. lia.
Qed.

Lemma Time_minus_offset_valid (now : Time) :
  Time_valid now →
  Time_minus now kMaxTimeOffset =
    if bool_decide (now < 5000000000) then Throw TimeOutOfRange
    else Ok (now - 5000000000).
Proof.
  unfold Time_valid, Time_of, UINT32_MAX. intros Hv.
  destruct (Time_minus_offset_cases now) as [[-> Hc]|[-> Hc]].
  - unfold Time_of, UINT32_MAX in Hc.
    rewrite bool_decide_eq_true_2; [done|lia].
  - rewrite bool_decide_eq_false_2; [done|lia].
Qed.

(** ** The time-stamp check *)

Lemma check_valid_timestamp_cases now msg_time rosout :
  (check_valid_timestamp now msg_time rosout = Throw TimeOutOfRange ∧
   (now < 5000000000 ∨ Time_of UINT32_MAX 999999999 + 5000000000 < now)) ∨
  (5000000000 ≤ now ∧ msg_time + 5000000000 < now ∧
   check_valid_timestamp now msg_time rosout =
     Ok (rosout ++ [ROS_ERROR (LidarClockNotInSync now msg_time)])) ∨
  (5000000000 ≤ now ∧ now ≤ msg_time + 5000000000 ∧
   check_valid_timestamp now msg_time rosout = Ok rosout).
Proof.
  unfold check_valid_timestamp.
  destruct (Time_minus_offset_cases now) as [[-> Hc]|[-> Hc]].
  - by left.
  - right. case_bool_decide; [left | right]; split_and!; (lia || reflexivity).
Qed.

Lemma check_valid_timestamp_app now msg_time (log0 : list LogLine) :
  check_valid_timestamp now msg_time log0 =
    match check_valid_timestamp now msg_time [] with
    | Ok lines => Ok (log0 ++ lines)
    | Throw e => Throw e
    end.
Proof.
  unfold check_valid_timestamp.
  destruct (Time_minus now kMaxTimeOffset); [|done].
  case_bool_decide; [done|]. by rewrite app_nil_r.
Qed.

(** ** The lidar handler *)

(** The paths through the handler: the batcher did not complete a scan,
    it completed one without any time stamp, it completed one that goes
    to the time-stamp check. *)
Ltac lidar_handler_paths s :=
  destruct s as [? ?]; unfold lidar_handler;
  destruct (batch_call _ _ _) as [[|] [? ?]];
    [destruct (find_if_timestamp _);
       [destruct (check_valid_timestamp _ _ _)|]|]; simpl.

Section LidarHandler.
Context `{Sdk}.
Implicit Types (c : Captured) (l : Locals) (o : Outputs) (pm : PacketMsg).

Lemma find_if_timestamp_None hs :
  find_if_timestamp hs = None ↔ Forall (λ h, timestamp h = 0) hs.
Proof.
  unfold find_if_timestamp. rewrite fmap_None, list_find_None.
  apply Forall_proper; [|done]. intros h. split; [|naive_solver].
  intros Hn. by destruct (decide (timestamp h = 0)).
Qed.

Lemma find_if_timestamp_first pre h post :
  Forall (λ h, timestamp h = 0) pre → timestamp h ≠ 0 →
  find_if_timestamp (pre ++ h :: post) = Some h.
Proof.
  intros Hpre Hh. unfold find_if_timestamp.
  rewrite list_find_app_r.
  - simpl. by rewrite decide_True.
  - apply list_find_None. eapply Forall_impl; [exact Hpre|].
    intros ? ->. naive_solver.
Qed.

Lemma find_if_timestamp_Some hs h :
  find_if_timestamp hs = Some h →
  ∃ pre post, hs = pre ++ h :: post ∧
    Forall (λ h, timestamp h = 0) pre ∧ timestamp h ≠ 0.
Proof.
  unfold find_if_timestamp. intros Hf.
  apply fmap_Some in Hf as [[i h'] [Hf ->]]. simpl.
  apply list_find_Some in Hf as (Hi & Hne & Hleast).
  exists (take i hs), (drop (S i) hs). split_and!; [|  |done].
  - by rewrite <-(take_drop_middle hs i h') at 1.
  - apply Forall_lookup. intros j y Hj.
    apply lookup_take_Some in Hj as [Hj Hlt].
    destruct (decide (timestamp y = 0)); [done|].
    exfalso. by eapply Hleast.
Qed.

Lemma find_if_timestamp_Exists hs :
  Exists (λ h, timestamp h ≠ 0) hs →
  ∃ h, find_if_timestamp hs = Some h.
Proof.
  intros Hex. destruct (find_if_timestamp hs) as [h|] eqn:Hf; [eauto|].
  apply find_if_timestamp_None in Hf. exfalso.
  apply Exists_exists in Hex as (h & Hin & Hne).
  by apply Hne, (proj1 (Forall_forall _ _) Hf).
Qed.

Lemma lidar_handler_not_swapped c now pm l o batch' ls' :
  batch_call (batch l) (buf pm) (ls l) = (false, (batch', ls')) →
  lidar_handler c now pm (l, o) = (Normal, (skipped l batch' ls', o)).
Proof. intros Hb. unfold lidar_handler. by rewrite Hb. Qed.

Lemma lidar_handler_no_stamp c now pm l o batch' ls' :
  batch_call (batch l) (buf pm) (ls l) = (true, (batch', ls')) →
  find_if_timestamp (headers ls') = None →
  lidar_handler c now pm (l, o) = (Normal, (skipped l batch' ls', o)).
Proof. intros Hb Hf. unfold lidar_handler. by rewrite Hb, Hf. Qed.

Lemma lidar_handler_stamp c now pm l o batch' ls' h rosout' :
  batch_call (batch l) (buf pm) (ls l) = (true, (batch', ls')) →
  find_if_timestamp (headers ls') = Some h →
  check_valid_timestamp now (timestamp h) (rosout o) = Ok rosout' →
  lidar_handler c now pm (l, o) =
    (Normal,
     (emitted c l batch' ls' (timestamp h),
      {| lidar_pub := lidar_pub o ++ [emitted_msg c l ls' (timestamp h)];
         imu_pub := imu_pub o;
         tf_bcast := tf_bcast o;
         rosout := rosout' |})).
Proof.
  intros Hb Hf Hc. unfold lidar_handler. rewrite Hb, Hf. simpl.
  by rewrite Hc.
Qed.

Lemma lidar_handler_throw c now pm l o batch' ls' h e :
  batch_call (batch l) (buf pm) (ls l) = (true, (batch', ls')) →
  find_if_timestamp (headers ls') = Some h →
  check_valid_timestamp now (timestamp h) (rosout o) = Throw e →
  lidar_handler c now pm (l, o) =
    (Thrown e, (converted c l batch' ls' (timestamp h), o)).
Proof.
  intros Hb Hf Hc. unfold lidar_handler. rewrite Hb, Hf. simpl.
  by rewrite Hc.
Qed.
End LidarHandler.

Section LidarHandlerClaims.
Context `{Sdk}.
Implicit Types (c : Captured) (l : Locals) (o : Outputs) (pm : PacketMsg).

(** C1.  When the batcher reports a completed scan and every column header
    of the buffer carries a zero time stamp, the lidar handler neither
    converts the scan (the cloud buffer is the one it had) nor publishes
    or logs anything (the outputs are the ones it had); it returns
    normally, with the batcher and the scan buffer as the batcher left
    them, ready for the next packet. *)
Theorem lidar_handler_drops_unstamped_scan c now pm l o batch' ls' :
  batch_call (batch l) (buf pm) (ls l) = (true, (batch', ls')) →
  Forall (λ h, timestamp h = 0) (headers ls') →
  lidar_handler c now pm (l, o) = (Normal, (skipped l batch' ls', o)).
Proof.
  intros Hb Hz. apply lidar_handler_no_stamp; [done|].
  by apply find_if_timestamp_None.
Qed.

(** C2.  The batcher reports a completed scan whose headers are
    [pre ++ h :: post] with only zero time stamps in [pre] and a nonzero
    one in [h].  The message the handler builds is the cloud converted and
    packed under the time stamp of [h], the first column with a nonzero
    time stamp, which is the header stamp of the message.  At a host time
    of five seconds or more the handler returns having published exactly
    that message; at a host time below five seconds the time-stamp check
    throws and nothing is published. *)
Theorem lidar_handler_stamp_is_first_nonzero
    c now pm l o batch' ls' pre h post :
  batch_call (batch l) (buf pm) (ls l) = (true, (batch', ls')) →
  headers ls' = pre ++ h :: post →
  Forall (λ h, timestamp h = 0) pre →
  timestamp h ≠ 0 →
  Time_valid now →
  ∃ msg,
    msg = cloud_to_cloud_msg
            (scan_to_cloud (xyz_lut c) (timestamp h) ls' (cloud l))
            (timestamp h) (sensor_frame c) ∧
    stamp (header msg) = timestamp h ∧
    ((5000000000 ≤ now ∧
      fst (lidar_handler c now pm (l, o)) = Normal ∧
      lidar_pub (snd (snd (lidar_handler c now pm (l, o)))) =
        lidar_pub o ++ [msg]) ∨
     (now < 5000000000 ∧
      fst (lidar_handler c now pm (l, o)) = Thrown TimeOutOfRange ∧
      lidar_pub (snd (snd (lidar_handler c now pm (l, o)))) = lidar_pub o)).
Proof.
  intros Hb Hhs Hpre Hh Hv.
  exists (emitted_msg c l ls' (timestamp h)). split_and!; [done..|].
  assert (Hf : find_if_timestamp (headers ls') = Some h)
    by (rewrite Hhs; by apply find_if_timestamp_first).
  unfold Time_valid in Hv.
  destruct (check_valid_timestamp_cases now (timestamp h) (rosout o))
    as [[Hc [?|?]]|[(? & ? & Hc)|(? & ? & Hc)]]; [|lia| |].
  - right. by erewrite lidar_handler_throw.
  - left. by erewrite lidar_handler_stamp.
  - left. by erewrite lidar_handler_stamp.
Qed.

(** C4, at the input where the code departs from it.  The batcher reports
    a completed scan with some nonzero time stamp and the host time is
    less than five seconds after the epoch: the handler converts the scan
    into the cloud buffer, the subtraction in [check_valid_timestamp]
    throws, and the handler is left before anything is published, logged
    or ticked. *)
Theorem lidar_handler_throws_before_publish c now pm l o batch' ls' :
  batch_call (batch l) (buf pm) (ls l) = (true, (batch', ls')) →
  Exists (λ h, timestamp h ≠ 0) (headers ls') →
  Time_valid now →
  now < 5000000000 →
  ∃ ts,
    ts ≠ 0 ∧
    lidar_handler c now pm (l, o) =
      (Thrown TimeOutOfRange, (converted c l batch' ls' ts, o)).
Proof.
  intros Hb Hex Hv Hlt. apply find_if_timestamp_Exists in Hex as [h Hf].
  exists (timestamp h).
  apply find_if_timestamp_Some in Hf as Hh.
  destruct Hh as (_ & _ & _ & _ & Hne). split; [done|].
  destruct (check_valid_timestamp_cases now (timestamp h) (rosout o))
    as [[Hc _]|[(? & _)|(? & _)]]; [|lia..].
  by erewrite lidar_handler_throw.
Qed.

(** C6, as the code has it.  The batcher reports a completed scan with
    some nonzero time stamp and the host time is five seconds or more
    after the epoch: the handler returns having published the cloud,
    whatever its stamp; it logs the clock report exactly when the stamp
    is more than five seconds behind the host time, and nothing when the
    stamp is at most five seconds behind or is ahead, however far. *)
Theorem clock_skew_does_not_block_emission c now pm l o batch' ls' :
  batch_call (batch l) (buf pm) (ls l) = (true, (batch', ls')) →
  Exists (λ h, timestamp h ≠ 0) (headers ls') →
  Time_valid now →
  5000000000 ≤ now →
  ∃ msg,
    fst (lidar_handler c now pm (l, o)) = Normal ∧
    lidar_pub (snd (snd (lidar_handler c now pm (l, o)))) =
      lidar_pub o ++ [msg] ∧
    ((stamp (header msg) + 5000000000 < now ∧
      rosout (snd (snd (lidar_handler c now pm (l, o)))) =
        rosout o ++
          [ROS_ERROR (LidarClockNotInSync now (stamp (header msg)))]) ∨
     (now ≤ stamp (header msg) + 5000000000 ∧
      rosout (snd (snd (lidar_handler c now pm (l, o)))) = rosout o)).
Proof.
  intros Hb Hex Hv Hge. apply find_if_timestamp_Exists in Hex as [h Hf].
  exists (emitted_msg c l ls' (timestamp h)).
  unfold Time_valid in Hv.
  destruct (check_valid_timestamp_cases now (timestamp h) (rosout o))
    as [[_ [?|?]]|[(_ & ? & Hc)|(_ & ? & Hc)]]; [lia..| |].
  - erewrite lidar_handler_stamp by done. simpl.
    split_and!; [done..|]. by left.
  - erewrite lidar_handler_stamp by done. simpl.
    split_and!; [done..|]. by right.
Qed.

(** C7, at the input where the code departs from it.  At a host time
    less than five seconds after the epoch [check_valid_timestamp] does
    not return: the subtraction [now - kMaxTimeOffset] throws, whatever
    the message time and the log. *)
Theorem check_valid_timestamp_throws_below_offset
    now msg_time (log0 : list LogLine) :
  Time_valid now →
  now < 5000000000 →
  check_valid_timestamp now msg_time log0 = Throw TimeOutOfRange.
Proof.
  intros Hv Hlt.
  destruct (check_valid_timestamp_cases now msg_time log0)
    as [[Hc _]|[(? & _)|(? & _)]]; [done|lia..].
Qed.
End LidarHandlerClaims.

(** ** The IMU handler *)

Section ImuHandler.
Context `{Sdk}.
Implicit Types (c : Captured) (l : Locals) (o : Outputs).

Lemma imu_handler_publishes c p l o :
  imu_handler c p (l, o) =
    (l, {| lidar_pub := lidar_pub o;
           imu_pub := imu_pub o ++ [packet_to_imu_msg p (imu_frame c) (pf c)];
           tf_bcast := tf_bcast o;
           rosout := rosout o |}).
Proof. reflexivity. Qed.

(** C5, as the code has it.  The IMU handler has no length check: for
    every stream of IMU packets, of whatever byte lengths, it publishes
    one reading per packet, in order, each one what [packet_to_imu_msg]
    returns for that packet alone, and it touches nothing else. *)
Theorem imu_handler_publishes_every_packet c (ps : list PacketMsg) l o :
  spin c (imu_packets <$> ps) (l, o) =
    (Normal,
     (l, {| lidar_pub := lidar_pub o;
            imu_pub := imu_pub o ++
              ((λ p, packet_to_imu_msg p (imu_frame c) (pf c)) <$> ps);
            tf_bcast := tf_bcast o;
            rosout := rosout o |})).
Proof.
  revert o. induction ps as [|p ps IH]; intros o.
  - simpl. rewrite app_nil_r. by destruct o.
  - rewrite fmap_cons. cbn [spin dispatch].
    rewrite imu_handler_publishes, IH. simpl. by rewrite <-app_assoc.
Qed.
End ImuHandler.

(** C5 fails as stated: on the sensor of [Fixture], whose IMU packets are
    four bytes long, an empty IMU packet is not of the expected length,
    and the handler publishes a reading for it. *)
Lemma imu_handler_publishes_wrong_length :
  let p := {| buf := [] |} in
  length (buf p) ≠ imu_packet_size (pf Fixture.captured) ∧
  imu_pub (snd (imu_handler Fixture.captured p (Fixture.fresh, no_outputs))) =
    [packet_to_imu_msg p "os_imu" Fixture.fmt] ∧
  imu_pub (snd (imu_handler Fixture.captured p (Fixture.fresh, no_outputs))) ≠
    imu_pub no_outputs.
Proof. simpl. split_and!; [lia|reflexivity|discriminate]. Qed.

(** ** Start-up and shutdown *)

Section Main.
Context `{Sdk}.
Implicit Types (c : Captured) (l : Locals) (o : Outputs) (env : Env).

Lemma lidar_handler_tf_bcast c now pm (s : Locals * Outputs) :
  tf_bcast (snd (snd (lidar_handler c now pm s))) = tf_bcast (snd s).
Proof. by lidar_handler_paths s. Qed.

Lemma dispatch_tf_bcast c (s : Locals * Outputs) cb :
  tf_bcast (snd (snd (dispatch c s cb))) = tf_bcast (snd s).
Proof.
  destruct cb as [now pm|p]; simpl.
  - apply lidar_handler_tf_bcast.
  - by destruct s.
Qed.

Lemma spin_tf_bcast c cbs (s : Locals * Outputs) :
  tf_bcast (snd (snd (spin c cbs s))) = tf_bcast (snd s).
Proof.
  revert s. induction cbs as [|cb cbs IH]; intros s; simpl; [done|].
  pose proof (dispatch_tf_bcast c s cb) as Hd.
  destruct (dispatch c s cb) as [[|e] s']; simpl in *.
  - by rewrite IH.
  - done.
Qed.

(** The variables and the first emissions of a [main] that got its
    metadata; its status and outputs are those of [ros::spin]. *)
Lemma main_Some (prefix metadata : string) cbs :
  main {| tf_prefix_param := prefix; os_config := Some metadata |} cbs =
    (match fst (spin (main_captured prefix metadata) cbs
                  (main_locals metadata, main_started prefix metadata)) with
     | Normal => Exit EXIT_SUCCESS
     | Thrown e => Terminated e
     end,
     snd (snd (spin (main_captured prefix metadata) cbs
                 (main_locals metadata, main_started prefix metadata)))).
Proof.
  unfold main. simpl.
  change (spin _ cbs _)
    with (spin (main_captured prefix metadata) cbs
            (main_locals metadata, main_started prefix metadata)).
  by destruct (spin _ _ _) as [[|e] s].
Qed.

(** When the [os_config] call fails, [main] logs the failure and returns
    [EXIT_FAILURE] having emitted nothing else, whatever packets are
    waiting: no handler ever runs.  [main] returns [EXIT_FAILURE] in that
    case only. *)
Lemma main_config_failure_is_fatal (prefix : string) env cbs :
  main {| tf_prefix_param := prefix; os_config := None |} cbs =
    (Exit EXIT_FAILURE,
     {| lidar_pub := []; imu_pub := []; tf_bcast := [];
        rosout := [ROS_ERROR ConfigServiceFailed] |}) ∧
  (fst (main env cbs) = Exit EXIT_FAILURE ↔ os_config env = None).
Proof.
  split; [done|]. destruct env as [p [metadata|]].
  - rewrite main_Some. simpl.
    destruct (fst (spin _ _ _)); split; discriminate.
  - done.
Qed.

(** C9.  Once the metadata is obtained, what [main] hands to the static
    transform broadcaster over its whole run, whatever the packets, is
    two messages: first the one built from the imu-to-sensor matrix of
    the metadata, then the one built from its lidar-to-sensor matrix,
    each matrix passed to [transform_to_tf_msg] as the metadata has
    it. *)
Theorem main_sends_each_transform_once (prefix metadata : string) cbs :
  let info := parse_metadata metadata in
  let tf_prefix := tf_prefix_of prefix in
  tf_bcast (snd (main {| tf_prefix_param := prefix;
                         os_config := Some metadata |} cbs)) =
    [ transform_to_tf_msg (imu_to_sensor_transform info)
        (tf_prefix +:+ "os_sensor") (tf_prefix +:+ "os_imu");
      transform_to_tf_msg (lidar_to_sensor_transform info)
        (tf_prefix +:+ "os_sensor") (tf_prefix +:+ "os_lidar") ].
Proof.
  intros info tf_prefix. rewrite main_Some. simpl.
  by rewrite spin_tf_bcast.
Qed.
End Main.

Section MainAborts.
Context `{Sdk}.

Lemma spin_app c cbs1 cbs2 (s : Locals * Outputs) :
  spin c (cbs1 ++ cbs2) s =
    match spin c cbs1 s with
    | (Normal, s') => spin c cbs2 s'
    | (Thrown e, s') => (Thrown e, s')
    end.
Proof.
  revert s. induction cbs1 as [|cb cbs1 IH]; intros s; simpl; [done|].
  destruct (dispatch c s cb) as [[|e] s']; [apply IH|done].
Qed.

(** C8, at the input where the code departs from it.  [main] got its
    metadata and ran the callbacks [pre], which all returned.  The next
    callback is a lidar packet on which the batcher reports a completed
    scan with some nonzero time stamp, at a host time less than five
    seconds after the epoch.  The exception of the time-stamp check leaves
    the handler, [ros::spin] and [main]: the process is terminated with
    what it had emitted before that callback, and the callbacks that
    follow are never run. *)
Theorem main_terminated_by_early_clock
    (prefix metadata : string) pre now pm cbs l1 o1 batch' ls' :
  spin (main_captured prefix metadata) pre
    (main_locals metadata, main_started prefix metadata) =
    (Normal, (l1, o1)) →
  batch_call (batch l1) (buf pm) (ls l1) = (true, (batch', ls')) →
  Exists (λ h, timestamp h ≠ 0) (headers ls') →
  Time_valid now →
  now < 5000000000 →
  main {| tf_prefix_param := prefix; os_config := Some metadata |}
    (pre ++ lidar_packets now pm :: cbs) =
    (Terminated TimeOutOfRange, o1).
Proof.
  intros Hpre Hb Hex Hv Hlt. rewrite main_Some, spin_app, Hpre.
  apply find_if_timestamp_Exists in Hex as [h Hf].
  destruct (check_valid_timestamp_cases now (timestamp h) (rosout o1))
    as [[Hc _]|[(? & _)|(? & _)]]; [|lia..].
  cbn [spin dispatch].
  by erewrite lidar_handler_throw.
Qed.
End MainAborts.

(** ** The claims on the fixture *)

Section OnFixture.
Import Fixture.

Lemma lidar_handler_drops_unstamped_scan_witness :
  let s := after unstamped_revolution in
  let r := wrap_call s in
  batch_call (batch (fst s)) (buf next_revolution) (ls (fst s)) =
    (true, (fst (snd r), snd (snd r))) ∧
  Forall (λ h, timestamp h = 0) (headers (snd (snd r))) ∧
  lidar_handler captured at_epoch next_revolution (fst s, snd s) =
    (Normal, (skipped (fst s) (fst (snd r)) (snd (snd r)), snd s)).
Proof.
  intros s r.
  assert (Hb : batch_call (batch (fst s)) (buf next_revolution) (ls (fst s)) =
                 (true, (fst (snd r), snd (snd r)))) by (vm_compute; reflexivity).
  assert (Hz : Forall (λ h, timestamp h = 0) (headers (snd (snd r))))
    by (vm_compute; repeat constructor).
  split_and!; [exact Hb|exact Hz|].
  exact (lidar_handler_drops_unstamped_scan captured at_epoch next_revolution
           (fst s) (snd s) (fst (snd r)) (snd (snd r)) Hb Hz).
Defined.

Lemma lidar_handler_stamp_is_first_nonzero_witness :
  let s := after partial_revolution in
  let r := wrap_call s in
  let pre := [ {| timestamp := 0; measurement_id := 0 |};
               {| timestamp := 0; measurement_id := 1 |} ] in
  let h := {| timestamp := 7000000000; measurement_id := 2 |} in
  let post := [ {| timestamp := 9000000000; measurement_id := 3 |} ] in
  headers (snd (snd r)) = pre ++ h :: post ∧
  Time_valid at_100s ∧
  ∃ msg,
    msg = cloud_to_cloud_msg
            (scan_to_cloud unit_lut 7000000000 (snd (snd r)) (cloud (fst s)))
            7000000000 "os_sensor" ∧
    stamp (header msg) = 7000000000 ∧
    ((5000000000 ≤ at_100s ∧
      fst (lidar_handler captured at_100s next_revolution (fst s, snd s)) =
        Normal ∧
      lidar_pub (snd (snd (lidar_handler captured at_100s next_revolution
                             (fst s, snd s)))) =
        lidar_pub (snd s) ++ [msg]) ∨
     (at_100s < 5000000000 ∧
      fst (lidar_handler captured at_100s next_revolution (fst s, snd s)) =
        Thrown TimeOutOfRange ∧
      lidar_pub (snd (snd (lidar_handler captured at_100s next_revolution
                             (fst s, snd s)))) =
        lidar_pub (snd s))).
Proof.
  intros s r pre h post.
  assert (Hb : batch_call (batch (fst s)) (buf next_revolution) (ls (fst s)) =
                 (true, (fst (snd r), snd (snd r)))) by (vm_compute; reflexivity).
  assert (Hhs : headers (snd (snd r)) = pre ++ h :: post)
    by (vm_compute; reflexivity).
  assert (Hpre : Forall (λ h, timestamp h = 0) pre) by (repeat constructor).
  assert (Hh : timestamp h ≠ 0) by (simpl; lia).
  assert (Hv : Time_valid at_100s) by (vm_compute; split; discriminate).
  split_and!; [exact Hhs|exact Hv|].
  exact (lidar_handler_stamp_is_first_nonzero captured at_100s next_revolution
           (fst s) (snd s) (fst (snd r)) (snd (snd r)) pre h post
           Hb Hhs Hpre Hh Hv).
Defined.

Lemma lidar_handler_throws_before_publish_witness :
  let s := after partial_revolution in
  let r := wrap_call s in
  fst r = true ∧
  Exists (λ h, timestamp h ≠ 0) (headers (snd (snd r))) ∧
  Time_valid at_epoch ∧
  at_epoch < 5000000000 ∧
  ∃ ts,
    ts ≠ 0 ∧
    lidar_handler captured at_epoch next_revolution (fst s, snd s) =
      (Thrown TimeOutOfRange,
       (converted captured (fst s) (fst (snd r)) (snd (snd r)) ts, snd s)).
Proof.
  intros s r.
  assert (Hb : batch_call (batch (fst s)) (buf next_revolution) (ls (fst s)) =
                 (true, (fst (snd r), snd (snd r)))) by (vm_compute; reflexivity).
  assert (Hex : Exists (λ h, timestamp h ≠ 0) (headers (snd (snd r)))).
  { vm_compute. do 2 apply Exists_cons_tl. apply Exists_cons_hd. discriminate. }
  assert (Hv : Time_valid at_epoch) by (vm_compute; split; discriminate).
  assert (Hlt : at_epoch < 5000000000) by reflexivity.
  split_and!; [reflexivity|exact Hex|exact Hv|exact Hlt|].
  exact (lidar_handler_throws_before_publish captured at_epoch next_revolution
           (fst s) (snd s) (fst (snd r)) (snd (snd r)) Hb Hex Hv Hlt).
Defined.

(** C6 fails as stated.  A scan whose first stamped column is stamped
    200 s is completed at host time 100 s: the time stamp is a hundred
    seconds away from the host time, the cloud is published, and nothing
    is reported. *)
Lemma clock_ahead_is_not_reported :
  let s := after [late_stamped_packet] in
  let r := lidar_handler captured at_100s next_revolution (fst s, snd s) in
  fst (wrap_call s) = true ∧
  fst r = Normal ∧
  (∃ msg,
     lidar_pub (snd (snd r)) = lidar_pub (snd s) ++ [msg] ∧
     stamp (header msg) = Time_of 200 0) ∧
  Time_of 200 0 - at_100s = Duration_of_sec 100 ∧
  rosout (snd (snd r)) = [].
Proof.
  vm_compute. split_and!; [done..| |done|done].
  eexists. split; reflexivity.
Qed.

Lemma clock_skew_does_not_block_emission_witness :
  let s := after partial_revolution in
  let r := wrap_call s in
  Exists (λ h, timestamp h ≠ 0) (headers (snd (snd r))) ∧
  Time_valid at_100s ∧
  5000000000 ≤ at_100s ∧
  ∃ msg,
    fst (lidar_handler captured at_100s next_revolution (fst s, snd s)) =
      Normal ∧
    lidar_pub (snd (snd (lidar_handler captured at_100s next_revolution
                           (fst s, snd s)))) =
      lidar_pub (snd s) ++ [msg] ∧
    ((stamp (header msg) + 5000000000 < at_100s ∧
      rosout (snd (snd (lidar_handler captured at_100s next_revolution
                          (fst s, snd s)))) =
        rosout (snd s) ++
          [ROS_ERROR (LidarClockNotInSync at_100s (stamp (header msg)))]) ∨
     (at_100s ≤ stamp (header msg) + 5000000000 ∧
      rosout (snd (snd (lidar_handler captured at_100s next_revolution
                          (fst s, snd s)))) =
        rosout (snd s))).
Proof.
  intros s r.
  assert (Hb : batch_call (batch (fst s)) (buf next_revolution) (ls (fst s)) =
                 (true, (fst (snd r), snd (snd r)))) by (vm_compute; reflexivity).
  assert (Hex : Exists (λ h, timestamp h ≠ 0) (headers (snd (snd r)))).
  { vm_compute. do 2 apply Exists_cons_tl. apply Exists_cons_hd. discriminate. }
  assert (Hv : Time_valid at_100s) by (vm_compute; split; discriminate).
  assert (Hge : 5000000000 ≤ at_100s) by (vm_compute; discriminate).
  split_and!; [exact Hex|exact Hv|exact Hge|].
  exact (clock_skew_does_not_block_emission captured at_100s next_revolution
           (fst s) (snd s) (fst (snd r)) (snd (snd r)) Hb Hex Hv Hge).
Defined.

Lemma check_valid_timestamp_throws_below_offset_witness :
  Time_valid at_epoch ∧
  at_epoch < 5000000000 ∧
  check_valid_timestamp at_epoch (Time_of 7 0) [] = Throw TimeOutOfRange.
Proof.
  assert (Hv : Time_valid at_epoch) by (vm_compute; split; discriminate).
  assert (Hlt : at_epoch < 5000000000) by reflexivity.
  split_and!; [exact Hv|exact Hlt|].
  exact (check_valid_timestamp_throws_below_offset at_epoch (Time_of 7 0) []
           Hv Hlt).
Defined.

Lemma main_terminated_by_early_clock_witness :
  let pre := lidar_packets at_epoch <$> unstamped_revolution in
  let s1 := spin (main_captured "robot" "{}") pre
              (main_locals "{}", main_started "robot" "{}") in
  let r := batch_call (batch (fst (snd s1))) (buf stamped_next_revolution)
             (ls (fst (snd s1))) in
  fst s1 = Normal ∧
  fst r = true ∧
  Exists (λ h, timestamp h ≠ 0) (headers (snd (snd r))) ∧
  Time_valid at_epoch ∧
  at_epoch < 5000000000 ∧
  main {| tf_prefix_param := "robot"; os_config := Some "{}" |}
    (pre ++ lidar_packets at_epoch stamped_next_revolution ::
       [lidar_packets at_100s next_revolution]) =
    (Terminated TimeOutOfRange, main_started "robot" "{}").
Proof.
  intros pre s1 r.
  assert (Hpre : spin (main_captured "robot" "{}") pre
                   (main_locals "{}", main_started "robot" "{}") =
                 (Normal, (fst (snd s1), main_started "robot" "{}")))
    by (vm_compute; reflexivity).
  assert (Hb : batch_call (batch (fst (snd s1))) (buf stamped_next_revolution)
                 (ls (fst (snd s1))) =
               (true, (fst (snd r), snd (snd r)))) by (vm_compute; reflexivity).
  assert (Hex : Exists (λ h, timestamp h ≠ 0) (headers (snd (snd r)))).
  { vm_compute. apply Exists_cons_hd. discriminate. }
  assert (Hv : Time_valid at_epoch) by (vm_compute; split; discriminate).
  assert (Hlt : at_epoch < 5000000000) by reflexivity.
  split_and!; [reflexivity|reflexivity|exact Hex|exact Hv|exact Hlt|].
  exact (main_terminated_by_early_clock "robot" "{}" pre at_epoch
           stamped_next_revolution [lidar_packets at_100s next_revolution]
           (fst (snd s1)) (main_started "robot" "{}")
           (fst (snd r)) (snd (snd r)) Hpre Hb Hex Hv Hlt).
Defined.
End OnFixture.

(** ** The two answers for the first column ever *)

(** One revolution and the packet that follows it, through a batcher that
    does not count the first column ever as completing a revolution, and
    through one that does. *)
Example batch_run_first_column_silent :
  ScanBatcherModel.run (ScanBatcherModel.new false 4 Fixture.fmt)
    (LidarScan_new 4 2)
    (Fixture.unstamped_revolution ++ [Fixture.next_revolution]) =
    [false; false; true].
Proof. reflexivity. Qed.

Example batch_run_first_column_completes :
  ScanBatcherModel.run (ScanBatcherModel.new true 4 Fixture.fmt)
    (LidarScan_new 4 2)
    (Fixture.unstamped_revolution ++ [Fixture.next_revolution]) =
    [true; false; true].
Proof. reflexivity. Qed.

(** ** The converter writes every point it owns *)

Section Store.
Context {A : Type}.
Implicit Types (ws : list (nat * A)) (l : list A) (Q : nat → A).

Lemma store_app ws1 ws2 l : store (ws1 ++ ws2) l = store ws2 (store ws1 l).
Proof. apply foldl_app. Qed.

Lemma store_length ws l : length (store ws l) = length l.
Proof.
  revert l. induction ws as [|[j a] ws IH]; intros l; simpl; [done|].
  unfold store in *. simpl. by rewrite IH, length_insert.
Qed.

Lemma store_untouched ws l i : i ∉ ws.*1 → store ws l !! i = l !! i.
Proof.
  revert l. induction ws as [|[j a] ws IH]; intros l Hi; [done|].
  rewrite fmap_cons in Hi. apply not_elem_of_cons in Hi as [Hne Hi].
  change (store ws (<[j:=a]> l) !! i = l !! i).
  rewrite IH by done. by apply list_lookup_insert_ne.
Qed.

(** When every write stores at [i] the value [Q i], a written index
    ends up holding [Q i], however many times it is written. *)
Lemma store_written Q ws l i :
  Forall (λ w, w.2 = Q w.1) ws → i ∈ ws.*1 → (i < length l)%nat →
  store ws l !! i = Some (Q i).
Proof.
  revert l. induction ws as [|[j a] ws IH]; intros l HQ Hi Hlt.
  - by apply elem_of_nil in Hi.
  - apply Forall_cons in HQ as [Ha HQ]. simpl in Ha. subst a.
    change (store ws (<[j:=Q j]> l) !! i = Some (Q i)).
    destruct (decide (i ∈ ws.*1)) as [Hin|Hout].
    + apply IH; [done..|]. by rewrite length_insert.
    + rewrite store_untouched by done.
      rewrite fmap_cons in Hi. apply elem_of_cons in Hi as [->|?]; [|done].
      by apply list_lookup_insert_eq.
Qed.

Lemma store_same ws l :
  Forall (λ w, (w.1 < length l)%nat → l !! w.1 = Some w.2) ws →
  store ws l = l.
Proof.
  induction ws as [|[j a] ws IH]; intros Hws; [done|].
  apply Forall_cons in Hws as [Ha Hws].
  change (store ws (<[j:=a]> l) = l).
  rewrite list_insert_id' by exact Ha. by apply IH.
Qed.

Lemma store_idempotent Q ws l :
  Forall (λ w, w.2 = Q w.1) ws → store ws (store ws l) = store ws l.
Proof.
  intros HQ. apply store_same. apply Forall_forall. intros [j a] Hin Hlt.
  simpl in *. rewrite store_length in Hlt.
  pose proof (proj1 (Forall_forall _ _) HQ _ Hin) as Ha. simpl in Ha.
  subst a. apply store_written; [done| |done].
  apply list_elem_of_fmap. by exists (j, Q j).
Qed.

Lemma foldl_store {B} (f : B → list (nat * A)) (xs : list B) l :
  foldl (λ l x, store (f x) l) l xs = store (xs ≫= f) l.
Proof.
  revert l. induction xs as [|x xs IH]; intros l; [done|].
  rewrite bind_cons, store_app. simpl. apply IH.
Qed.
End Store.

Module ScanToCloudFacts.
Section Converter.
Import ScanToCloudModel.
Context `{RosTypes}.
Variables (fmul fadd : float → float → float) (of_range : Z → float).
Variable no_return : float * float * float.
Variables (l : lut) (scan_ts : Z) (ls : LidarScan).

Local Abbreviation point_of := (point_of fmul fadd of_range no_return l scan_ts ls).
Local Abbreviation point_at := (point_at fmul fadd of_range no_return l scan_ts ls).
Local Abbreviation row_writes := (row_writes fmul fadd of_range no_return l scan_ts ls).
Local Abbreviation writes := (writes fmul fadd of_range no_return l scan_ts ls).
Local Abbreviation convert_row := (convert_row fmul fadd of_range no_return l scan_ts ls).
Local Abbreviation scan_to_cloud := (scan_to_cloud fmul fadd of_range no_return l scan_ts ls).

Lemma convert_row_store u pts : convert_row u pts = store (row_writes u) pts.
Proof.
  unfold ScanToCloudModel.convert_row, ScanToCloudModel.row_writes, store.
  by rewrite foldl_fmap.
Qed.

Lemma convert_rows_store us pts :
  foldl (λ pts u, convert_row u pts) pts us = store (us ≫= row_writes) pts.
Proof.
  revert pts. induction us as [|u us IH]; intros pts; [done|].
  rewrite bind_cons, store_app. simpl.
  by rewrite IH, convert_row_store.
Qed.

Lemma scan_to_cloud_store cloud :
  points (scan_to_cloud cloud) = store writes (points cloud).
Proof. apply convert_rows_store. Qed.

(** Inside a row, the index determines the pixel. *)
Lemma point_at_index u v :
  (v < w ls)%nat → point_at (u * w ls + v) = point_of u v.
Proof.
  intros Hv. unfold ScanToCloudModel.point_at.
  replace ((u * w ls + v) / w ls)%nat with u
    by (apply (Nat.div_unique _ _ u v); lia).
  replace ((u * w ls + v) mod w ls)%nat with v
    by (apply (Nat.mod_unique _ _ u v); lia).
  done.
Qed.

Lemma writes_point_at : Forall (λ wr, wr.2 = point_at wr.1) writes.
Proof.
  unfold ScanToCloudModel.writes. apply Forall_bind, Forall_forall.
  intros u _. unfold ScanToCloudModel.row_writes. simpl.
  apply Forall_fmap, Forall_forall. intros v Hv. simpl.
  apply elem_of_seq in Hv. symmetry. apply point_at_index. lia.
Qed.

Lemma writes_indices i : i ∈ writes.*1 ↔ (i < h ls * w ls)%nat.
Proof.
  unfold ScanToCloudModel.writes, ScanToCloudModel.row_writes. split.
  - intros ([j p] & -> & Hin)%list_elem_of_fmap.
    apply list_elem_of_bind in Hin as (u & Hin & Hu).
    apply list_elem_of_fmap in Hin as (v & Heq & Hv).
    injection Heq as -> _. apply elem_of_seq in Hu, Hv. simpl. nia.
  - intros Hi.
    assert (Hw : (0 < w ls)%nat) by nia.
    pose proof (Nat.div_mod_eq i (w ls)) as Hdm.
    pose proof (Nat.mod_upper_bound i (w ls)) as Hm.
    assert (Hu : (i / w ls < h ls)%nat)
      by (apply Nat.Div0.div_lt_upper_bound; lia).
    apply list_elem_of_fmap.
    exists ((i / w ls * w ls + i mod w ls)%nat,
            point_of (i / w ls) (i mod w ls)).
    split; [simpl; lia|].
    apply list_elem_of_bind. exists (i / w ls)%nat. split.
    + apply list_elem_of_fmap. exists (i mod w ls)%nat. split; [done|].
      apply elem_of_seq. lia.
    + apply elem_of_seq. lia.
Qed.

(** The points of the converted cloud: the first [h * w] entries of the
    buffer are the points of the scan, the entries after them are left as
    they were. *)
Lemma scan_to_cloud_points cloud :
  points (scan_to_cloud cloud) =
    (point_at <$> seq 0 (length (points cloud) `min` (h ls * w ls))) ++
    drop (h ls * w ls) (points cloud).
Proof.
  rewrite scan_to_cloud_store. apply list_eq. intros i.
  destruct (decide (i < length (points cloud) `min` (h ls * w ls))%nat)
    as [Hlt|Hge].
  - rewrite lookup_app_l by (rewrite length_fmap, length_seq; lia).
    rewrite list_lookup_fmap, lookup_seq_lt by lia. simpl.
    apply store_written; [apply writes_point_at| |lia].
    apply writes_indices. lia.
  - rewrite lookup_app_r by (rewrite length_fmap, length_seq; lia).
    rewrite length_fmap, length_seq, lookup_drop.
    destruct (decide (i < length (points cloud))%nat) as [Hin|Hout].
    + rewrite store_untouched by (rewrite writes_indices; lia).
      f_equal. lia.
    + rewrite !lookup_ge_None_2; [done|lia|rewrite store_length; lia].
Qed.

End Converter.
End ScanToCloudFacts.

(** C10.  Converting a scan into a cloud buffer and converting the same
    scan, with the same lookup table and scan time stamp, into the
    resulting buffer again leaves the cloud as the first conversion made
    it, whatever the buffer held before.  The points the conversion writes
    are a function of the lookup table, the scan time stamp and the scan
    alone: entry [i] of the first [h * w] entries is the point of pixel
    (row [i / w], column [i mod w]). *)
Theorem scan_to_cloud_twice `{RosTypes}
    (fmul fadd : float → float → float) (of_range : Z → float)
    (no_return : float * float * float)
    (l : ScanToCloudModel.lut) (scan_ts : Z) (ls : LidarScan) (cloud : Cloud) :
  ScanToCloudModel.scan_to_cloud fmul fadd of_range no_return l scan_ts ls
    (ScanToCloudModel.scan_to_cloud fmul fadd of_range no_return l scan_ts ls
       cloud) =
  ScanToCloudModel.scan_to_cloud fmul fadd of_range no_return l scan_ts ls
    cloud ∧
  points (ScanToCloudModel.scan_to_cloud fmul fadd of_range no_return l
            scan_ts ls cloud) =
    (ScanToCloudModel.point_at fmul fadd of_range no_return l scan_ts ls
       <$> seq 0 (length (points cloud) `min` (h ls * w ls))) ++
    drop (h ls * w ls) (points cloud).
Proof.
  split; [|apply ScanToCloudFacts.scan_to_cloud_points].
  set (once := ScanToCloudModel.scan_to_cloud _ _ _ _ l scan_ts ls cloud).
  pose proof (ScanToCloudFacts.scan_to_cloud_store fmul fadd of_range
                no_return l scan_ts ls) as Hst.
  assert (Hpts : points (ScanToCloudModel.scan_to_cloud fmul fadd of_range
                           no_return l scan_ts ls once) = points once).
  { rewrite Hst. unfold once. rewrite Hst.
    eapply store_idempotent, ScanToCloudFacts.writes_point_at. }
  unfold ScanToCloudModel.scan_to_cloud in *. simpl in *.
  by rewrite Hpts.
Qed.

(** The converter on the fixture: the cloud of the half-stamped
    revolution, converted a second time into the same buffer. *)
Example scan_to_cloud_twice_on_fixture :
  let s := Fixture.after Fixture.half_stamped_revolution in
  let once := scan_to_cloud Fixture.unit_lut 7000000000 (ls (fst s))
                (cloud (fst s)) in
  range <$> points once = [5; 5; 5; 0; 5; 5; 5; 0] ∧
  x <$> points once = [5; 5; 5; 0; 5; 5; 5; 0] ∧
  t <$> points once =
    [-7000000000; -7000000000; 0; 2000000000;
     -7000000000; -7000000000; 0; 2000000000] ∧
  scan_to_cloud Fixture.unit_lut 7000000000 (ls (fst s)) once = once.
Proof. vm_compute. done. Qed.

(** ** Frame names *)

Lemma back_append_slash (p : string) : back (p +:+ "/") = Some "/"%char.
Proof.
  unfold back.
  assert (Hlen : ∀ q : string,
            String.length (q +:+ "/") = S (String.length q)).
  { induction q as [|a q IH]; simpl; [done|]. by rewrite IH. }
  rewrite Hlen. simpl.
  induction p as [|a p IH]; simpl; [done|]. exact IH.
Qed.

Lemma append_inj_r (p a b : string) : p +:+ a = p +:+ b → a = b.
Proof.
  induction p as [|ch p IH]; simpl; [done|].
  intros Heq. injection Heq as Heq. by apply IH.
Qed.

(** X1.  The prefix [main] puts before its frame names (lines 43 and 44):
    an empty [tf_prefix] parameter stays empty; a nonempty one comes out
    ending in a slash, either unchanged or with one slash appended; and a
    prefix that went through once is not changed by going through
    again. *)
Theorem tf_prefix_of_normal (p : string) :
  ((p = "" ∧ tf_prefix_of p = "") ∨
   (p ≠ "" ∧ back (tf_prefix_of p) = Some "/"%char ∧
    (tf_prefix_of p = p ∨ tf_prefix_of p = p +:+ "/"))) ∧
  tf_prefix_of (tf_prefix_of p) = tf_prefix_of p.
Proof.
  assert (Hshape : (p = "" ∧ tf_prefix_of p = "") ∨
            (p ≠ "" ∧ back (tf_prefix_of p) = Some "/"%char ∧
             (tf_prefix_of p = p ∨ tf_prefix_of p = p +:+ "/"))).
  { unfold tf_prefix_of. case_bool_decide as Hc.
    - right. destruct Hc as [Hne _]. split_and!; [done| |by right].
      apply back_append_slash.
    - destruct (decide (p = "")) as [->|Hne]; [by left|].
      right. split_and!; [done| |by left].
      destruct (decide (back p = Some "/"%char)); [done|].
      exfalso. by apply Hc. }
  split; [exact Hshape|].
  destruct Hshape as [[-> ->]|(Hne & Hback & _)]; [done|].
  unfold tf_prefix_of at 1. rewrite bool_decide_eq_false_2; [done|].
  intros [_ Hn]. by apply Hn.
Qed.

(** X2.  Whatever the [tf_prefix] parameter, the three frame names of
    lines 45 to 47 are pairwise distinct: each broadcast transform relates
    two different frames, and the two transforms have different child
    frames. *)
Theorem main_frames_distinct (p : string) :
  tf_prefix_of p +:+ "os_sensor" ≠ tf_prefix_of p +:+ "os_imu" ∧
  tf_prefix_of p +:+ "os_sensor" ≠ tf_prefix_of p +:+ "os_lidar" ∧
  tf_prefix_of p +:+ "os_imu" ≠ tf_prefix_of p +:+ "os_lidar".
Proof.
  split_and!; intros Heq; apply append_inj_r in Heq; discriminate Heq.
Qed.


(** ** What a run of the handlers adds *)

Section RunFacts.
Context `{Sdk}.
Implicit Types (c : Captured) (l : Locals) (o : Outputs) (cb : Callback).

Lemma run_effect_refl c l o : run_effect c l o [] [] (l, o).
Proof.
  unfold run_effect. simpl. rewrite !app_nil_r.
  split_and!; (done || lia).
Qed.

Lemma run_effect_trans c l o es1 imus1 r1 es2 imus2 r2 :
  run_effect c l o es1 imus1 r1 →
  run_effect c (fst r1) (snd r1) es2 imus2 r2 →
  run_effect c l o (es1 ++ es2) (imus1 ++ imus2) r2.
Proof.
  intros (Hp1 & Hi1 & Ht1 & Hr1 & Hk1 & Hu1)
         (Hp2 & Hi2 & Ht2 & Hr2 & Hk2 & Hu2).
  unfold run_effect. split_and!.
  - by rewrite Hp2, Hp1, fmap_app, app_assoc.
  - by rewrite Hi2, Hi1, app_assoc.
  - by rewrite Ht2, Ht1.
  - by rewrite Hr2, Hr1, bind_app, app_assoc.
  - by rewrite Hk2, Hk1, fmap_app, app_assoc.
  - rewrite Hu2, Hu1, length_app. lia.
Qed.

Lemma lidar_handler_batcher c now pm l o :
  (batch (fst (snd (lidar_handler c now pm (l, o)))),
   ls (fst (snd (lidar_handler c now pm (l, o))))) =
    snd (batch_call (batch l) (buf pm) (ls l)).
Proof.
  unfold lidar_handler.
  destruct (batch_call _ _ _) as [[|] [? ?]]; [|done].
  destruct (find_if_timestamp _); [|done]. simpl.
  by destruct (check_valid_timestamp _ _ _).
Qed.

(** One lidar packet: at most one emission, under a nonzero time stamp,
    checked against the host time of the callback; none when the handler
    is left by an exception. *)
Lemma lidar_handler_run c now pm l o :
  ∃ es,
    (length es ≤ 1)%nat ∧
    Forall (λ e, em_stamp e ≠ 0 ∧ em_now e = now) es ∧
    run_effect c l o es [] (snd (lidar_handler c now pm (l, o))).
Proof.
  destruct (batch_call (batch l) (buf pm) (ls l)) as [[|] [b' ls']] eqn:Hb.
  - destruct (find_if_timestamp (headers ls')) as [h|] eqn:Hf.
    + apply find_if_timestamp_Some in Hf as Hh.
      destruct Hh as (_ & _ & _ & _ & Hne).
      destruct (check_valid_timestamp now (timestamp h) (rosout o))
        as [rosout'|e] eqn:Hc.
      * exists [ {| em_now := now; em_stamp := timestamp h;
                    em_cloud := emitted_cloud c l ls' (timestamp h) |} ].
        split_and!; [simpl; lia|by repeat constructor|].
        erewrite lidar_handler_stamp by done.
        rewrite check_valid_timestamp_app in Hc.
        unfold run_effect, report_of. simpl. rewrite !app_nil_r.
        destruct (check_valid_timestamp now (timestamp h) [])
          as [lines|]; [|done].
        injection Hc as <-.
        split_and!; try done; try lia.
      * exists []. split_and!; [simpl; lia|constructor|].
        erewrite lidar_handler_throw by done.
        unfold run_effect, converted. simpl. rewrite !app_nil_r.
        split_and!; (done || lia).
    + exists []. split_and!; [simpl; lia|constructor|].
      erewrite lidar_handler_no_stamp by done.
      unfold run_effect, skipped. simpl. rewrite !app_nil_r.
      split_and!; (done || lia).
  - exists []. split_and!; [simpl; lia|constructor|].
    erewrite lidar_handler_not_swapped by done.
    unfold run_effect, skipped. simpl. rewrite !app_nil_r.
    split_and!; (done || lia).
Qed.

Lemma imu_handler_run c p l o :
  run_effect c l o [] [packet_to_imu_msg p (imu_frame c) (pf c)]
    (imu_handler c p (l, o)).
Proof.
  unfold run_effect. simpl. rewrite !app_nil_r.
  split_and!; (done || lia).
Qed.

(** A whole run.  The callbacks [ran] were run and [rest] were not: [rest]
    is empty unless an exception left [ros::spin], and then the last of
    [ran] is the callback that threw.  At most one emission per lidar
    callback run, one reading per IMU callback run, and the batcher called
    on every lidar packet run. *)
Lemma spin_run c cbs (s : Locals * Outputs) :
  ∃ ran rest es,
    cbs = ran ++ rest ∧
    (rest = [] ∨ ∃ e, fst (spin c cbs s) = Thrown e) ∧
    (length es ≤ length (filter (λ cb, is_lidar cb) ran))%nat ∧
    Forall (λ e, em_stamp e ≠ 0) es ∧
    run_effect c (fst s) (snd s) es
      ((λ p, packet_to_imu_msg p (imu_frame c) (pf c)) <$> omap imu_of ran)
      (snd (spin c cbs s)) ∧
    (batch (fst (snd (spin c cbs s))), ls (fst (snd (spin c cbs s)))) =
      feed_batcher (omap lidar_of ran) (batch (fst s), ls (fst s)).
Proof.
  revert s. induction cbs as [|cb cbs IH]; intros [l o].
  - exists [], [], []. split_and!; [done|by left|done|constructor| |done].
    apply run_effect_refl.
  - destruct cb as [now pm|p].
    + destruct (lidar_handler_run c now pm l o) as (es1 & Hlen1 & Hne1 & Hrun1).
      pose proof (lidar_handler_batcher c now pm l o) as Hfeed1.
      cbn [spin dispatch].
      destruct (lidar_handler c now pm (l, o)) as [[|e] [l1 o1]] eqn:Hh.
      * destruct (IH (l1, o1))
          as (ran & rest & es2 & -> & Hend & Hlen2 & Hne2 & Hrun2 & Hfeed2).
        exists (lidar_packets now pm :: ran), rest, (es1 ++ es2).
        split_and!; [done|done| | | |].
        -- rewrite length_app, filter_cons_True by done. simpl. lia.
        -- apply Forall_app. split; [|done].
           eapply Forall_impl; [exact Hne1|]. by intros ? [? _].
        -- apply (run_effect_trans c l o es1 [] (l1, o1) es2 _ _ Hrun1 Hrun2).
        -- rewrite Hfeed2. simpl in *. unfold feed_batcher. simpl.
           by rewrite Hfeed1.
      * exists [lidar_packets now pm], cbs, es1.
        split_and!; [done|right; by eexists| | |done|].
        -- rewrite filter_cons_True by done. simpl. lia.
        -- eapply Forall_impl; [exact Hne1|]. by intros ? [? _].
        -- simpl in *. unfold feed_batcher. simpl. by rewrite Hfeed1.
    + cbn [spin dispatch]. rewrite imu_handler_publishes.
      destruct (IH (imu_handler c p (l, o)))
        as (ran & rest & es2 & -> & Hend & Hlen2 & Hne2 & Hrun2 & Hfeed2).
      rewrite imu_handler_publishes in *.
      exists (imu_packets p :: ran), rest, es2.
      split_and!; [done|done| |done| |done].
      * rewrite filter_cons_False by (by intros ?). done.
      * apply (run_effect_trans c l o [] [_] _ es2 _ _
                 (imu_handler_run c p l o) Hrun2).
Qed.
End RunFacts.

Section RunProperties.
Context `{Sdk}.
Implicit Types (c : Captured) (l : Locals) (o : Outputs) (env : Env).

Lemma report_of_line (e : Emission) line :
  line ∈ report_of e →
  line = ROS_ERROR (LidarClockNotInSync (em_now e) (em_stamp e)) ∧
  em_stamp e + 5000000000 < em_now e.
Proof.
  unfold report_of.
  destruct (check_valid_timestamp_cases (em_now e) (em_stamp e) [])
    as [[-> _]|[(_ & Hlate & ->)|(_ & _ & ->)]]; simpl.
  - by intros ?%elem_of_nil.
  - intros ->%list_elem_of_singleton. done.
  - by intros ?%elem_of_nil.
Qed.

Lemma reports_length (es : list Emission) :
  (length (es ≫= report_of) ≤ length es)%nat.
Proof.
  induction es as [|e es IH]; [done|].
  rewrite bind_cons, length_app. simpl.
  assert (length (report_of e) ≤ 1)%nat; [|lia].
  unfold report_of.
  destruct (check_valid_timestamp_cases (em_now e) (em_stamp e) [])
    as [[-> _]|[(_ & _ & ->)|(_ & _ & ->)]]; simpl; lia.
Qed.

(** The lidar handler reads the IMU publications of its input state on no
    path. *)
Lemma lidar_handler_imu_blind c now pm l o o' :
  lidar_pub o = lidar_pub o' → tf_bcast o = tf_bcast o' →
  rosout o = rosout o' →
  fst (lidar_handler c now pm (l, o)) = fst (lidar_handler c now pm (l, o')) ∧
  fst (snd (lidar_handler c now pm (l, o))) =
    fst (snd (lidar_handler c now pm (l, o'))) ∧
  lidar_pub (snd (snd (lidar_handler c now pm (l, o)))) =
    lidar_pub (snd (snd (lidar_handler c now pm (l, o')))) ∧
  tf_bcast (snd (snd (lidar_handler c now pm (l, o)))) =
    tf_bcast (snd (snd (lidar_handler c now pm (l, o')))) ∧
  rosout (snd (snd (lidar_handler c now pm (l, o)))) =
    rosout (snd (snd (lidar_handler c now pm (l, o')))).
Proof.
  intros Hp Ht Hr. unfold lidar_handler.
  destruct (batch_call _ _ _) as [[|] [? ?]]; [|done].
  destruct (find_if_timestamp _); [|done]. simpl. rewrite <-Hr.
  destruct (check_valid_timestamp _ _ _); simpl; [|done].
  by rewrite Hp, Ht.
Qed.

Lemma spin_imu_blind c cbs l o o' :
  lidar_pub o = lidar_pub o' → tf_bcast o = tf_bcast o' →
  rosout o = rosout o' →
  fst (spin c cbs (l, o)) =
    fst (spin c (filter (λ cb, is_lidar cb) cbs) (l, o')) ∧
  fst (snd (spin c cbs (l, o))) =
    fst (snd (spin c (filter (λ cb, is_lidar cb) cbs) (l, o'))) ∧
  lidar_pub (snd (snd (spin c cbs (l, o)))) =
    lidar_pub (snd (snd (spin c (filter (λ cb, is_lidar cb) cbs) (l, o')))) ∧
  tf_bcast (snd (snd (spin c cbs (l, o)))) =
    tf_bcast (snd (snd (spin c (filter (λ cb, is_lidar cb) cbs) (l, o')))) ∧
  rosout (snd (snd (spin c cbs (l, o)))) =
    rosout (snd (snd (spin c (filter (λ cb, is_lidar cb) cbs) (l, o')))).
Proof.
  revert l o o'. induction cbs as [|cb cbs IH]; intros l o o' Hp Ht Hr.
  - done.
  - destruct cb as [now pm|p].
    + rewrite filter_cons_True by done. cbn [spin dispatch].
      destruct (lidar_handler_imu_blind c now pm l o o' Hp Ht Hr)
        as (Hc1 & Hl1 & Hp1 & Ht1 & Hr1).
      destruct (lidar_handler c now pm (l, o)) as [k1 [l1 o1]].
      destruct (lidar_handler c now pm (l, o')) as [k1' [l1' o1']].
      simpl in *. subst k1' l1'. destruct k1; [by apply IH|done].
    + rewrite filter_cons_False by (by intros ?). cbn [spin dispatch].
      rewrite imu_handler_publishes. by apply IH.
Qed.


(** X4.  Every point cloud [main] publishes over a run is in the sensor
    frame, the [tf_prefix] followed by [os_sensor], and carries a nonzero
    header stamp. *)
Theorem main_publishes_stamped_clouds (prefix metadata : string) cbs :
  Forall (λ msg,
            frame_id (header msg) = tf_prefix_of prefix +:+ "os_sensor" ∧
            stamp (header msg) ≠ 0)
    (lidar_pub (snd (main {| tf_prefix_param := prefix;
                             os_config := Some metadata |} cbs))).
Proof.
  rewrite main_Some. simpl.
  destruct (spin_run (main_captured prefix metadata) cbs
              (main_locals metadata, main_started prefix metadata))
    as (ran & rest & es & _ & _ & _ & Hne & (Hp & _) & _).
  rewrite Hp. simpl. apply Forall_fmap.
  eapply Forall_impl; [exact Hne|]. by intros e He.
Qed.

(** X5.  On a run that got its metadata, every line of the log is a clock
    report: it names a host time and a lidar time more than five seconds
    before it, and that lidar time is the header stamp of a cloud
    published in the run.  The failure of the config service is never
    logged on such a run. *)
Theorem main_logs_only_clock_reports (prefix metadata : string) cbs :
  Forall (λ line,
            ∃ now lidar_time,
              line = ROS_ERROR (LidarClockNotInSync now lidar_time) ∧
              lidar_time + 5000000000 < now ∧
              ∃ msg,
                msg ∈ lidar_pub (snd (main {| tf_prefix_param := prefix;
                                              os_config := Some metadata |}
                                        cbs)) ∧
                stamp (header msg) = lidar_time)
    (rosout (snd (main {| tf_prefix_param := prefix;
                          os_config := Some metadata |} cbs))).
Proof.
  rewrite main_Some. simpl.
  destruct (spin_run (main_captured prefix metadata) cbs
              (main_locals metadata, main_started prefix metadata))
    as (ran & rest & es & _ & _ & _ & _ & (Hp & _ & _ & Hr & _) & _).
  rewrite Hr, Hp. simpl. apply Forall_forall. intros line Hin.
  apply list_elem_of_bind in Hin as (e & Hline & He).
  apply report_of_line in Hline as [-> Hlate].
  exists (em_now e), (em_stamp e). split_and!; [done..|].
  exists (publish_of (main_captured prefix metadata) e). split; [|done].
  by apply list_elem_of_fmap_2.
Qed.

(** X6.  Over any run, [main] publishes at most one cloud per lidar
    callback and logs at most one line per published cloud. *)
Theorem main_emission_counts (prefix metadata : string) cbs :
  (length (lidar_pub (snd (main {| tf_prefix_param := prefix;
                                   os_config := Some metadata |} cbs))) ≤
   length (filter (λ cb, is_lidar cb) cbs))%nat ∧
  (length (rosout (snd (main {| tf_prefix_param := prefix;
                                os_config := Some metadata |} cbs))) ≤
   length (lidar_pub (snd (main {| tf_prefix_param := prefix;
                                   os_config := Some metadata |} cbs))))%nat.
Proof.
  rewrite main_Some. simpl.
  destruct (spin_run (main_captured prefix metadata) cbs
              (main_locals metadata, main_started prefix metadata))
    as (ran & rest & es & Hcbs & _ & Hlen & _ & (Hp & _ & _ & Hr & _) & _).
  rewrite Hr, Hp. simpl. rewrite length_fmap.
  split; [|apply reports_length].
  rewrite Hcbs, filter_app, length_app. lia.
Qed.


(** X8.  IMU traffic does not reach the lidar side: the way the process
    ends, the clouds published, the transforms broadcast and the log of a
    run are those of the same run with the IMU callbacks taken out. *)
Theorem main_lidar_side_ignores_imu env cbs :
  fst (main env cbs) = fst (main env (filter (λ cb, is_lidar cb) cbs)) ∧
  lidar_pub (snd (main env cbs)) =
    lidar_pub (snd (main env (filter (λ cb, is_lidar cb) cbs))) ∧
  tf_bcast (snd (main env cbs)) =
    tf_bcast (snd (main env (filter (λ cb, is_lidar cb) cbs))) ∧
  rosout (snd (main env cbs)) =
    rosout (snd (main env (filter (λ cb, is_lidar cb) cbs))).
Proof.
  destruct env as [prefix [metadata|]]; [|done].
  rewrite !main_Some. simpl.
  destruct (spin_imu_blind (main_captured prefix metadata) cbs
              (main_locals metadata) (main_started prefix metadata)
              (main_started prefix metadata)) as (-> & _ & ? & ? & ?);
    done.
Qed.

(** X10.  Over any run of the handlers, the diagnostics object is ticked
    and updated once per published cloud and at no other moment: the
    stamps it was ticked with during the run are the header stamps of the
    clouds published during the run, in order. *)
Theorem spin_ticks_diagnostics_per_cloud c cbs l o :
  ∃ new,
    lidar_pub (snd (snd (spin c cbs (l, o)))) = lidar_pub o ++ new ∧
    ticks (diagnostics (fst (snd (spin c cbs (l, o))))) =
      ticks (diagnostics l) ++ (stamp ∘ header <$> new) ∧
    updates (diagnostics (fst (snd (spin c cbs (l, o))))) =
      (updates (diagnostics l) + length new)%nat.
Proof.
  destruct (spin_run c cbs (l, o))
    as (ran & rest & es & _ & _ & _ & _ & (Hp & _ & _ & _ & Hk & Hu) & _).
  exists (publish_of c <$> es). simpl in *.
  rewrite Hk, Hu, length_fmap, <-list_fmap_compose. done.
Qed.

End RunProperties.

(** ** The node from start to shutdown on the fixture *)

(** One partial revolution and the packet that follows it, delivered a
    hundred seconds after the epoch.  The batcher of the fixture completes
    a scan on each of the two packets: the two transforms, two clouds
    stamped with the time of column 2, and two clock reports. *)
Example main_on_fixture :
  let cbs := lidar_packets Fixture.at_100s <$>
               (Fixture.partial_revolution ++ [Fixture.next_revolution]) in
  let '(status, o) :=
    main {| tf_prefix_param := "robot"; os_config := Some "{}" |} cbs in
  status = Exit EXIT_SUCCESS ∧
  (stamp ∘ header <$> lidar_pub o) = [Time_of 7 0; Time_of 7 0] ∧
  (frame_id ∘ header <$> lidar_pub o) =
    ["robot/os_sensor"; "robot/os_sensor"] ∧
  tf_bcast o =
    [ (imu_to_sensor_transform Fixture.info, "robot/os_sensor", "robot/os_imu");
      (lidar_to_sensor_transform Fixture.info, "robot/os_sensor",
       "robot/os_lidar") ] ∧
  rosout o =
    [ ROS_ERROR (LidarClockNotInSync Fixture.at_100s (Time_of 7 0));
      ROS_ERROR (LidarClockNotInSync Fixture.at_100s (Time_of 7 0)) ].
Proof. vm_compute. done. Qed.
